(** * Journal-Automatic: the arithmetic core of the trading journal

    A shallow embedding of the parts of [src/app.py] that compute
    something: the market-session classifier, the pips/price
    synchronisation of the entry form, the partial-close and close-trade
    handlers, the review table and statistics bar, the normalisation of
    partial closes at load and the playbook option store.

    Conventions of the embedding.
    - A Python [float] is an exact rational ([Q]).  The rounding error of
      binary64 arithmetic is not modelled; [round(x, n)] is rounding to
      the nearest multiple of [10^-n] of the exact value, ties to even.
    - A Python [str] is a [string] whose characters are read as the code
      points 0..255.
    - A Tk variable is the value it holds; a handler is a function from
      the state before to the state after, together with the message box
      it shows, if any. *)

From stdpp Require Import base strings list gmap sorting.
From Stdlib Require Import Ascii QArith Qabs Qround Lqa Lia.

Local Open Scope string_scope.
Local Open Scope list_scope.

(** ** Python's [str.join] *)

Fixpoint join (sep : string) (l : list string) : string :=
  match l with
  | [] => ""
  | [x] => x
  | x :: rest => x +:+ sep +:+ join sep rest
  end.

(** * Market sessions ([update_market_session], lines 1769-1792) *)

Module Session.

(** [datetime.time]: compared field by field, most significant first. *)
Record dt_time := mk_time
  { hour : nat; minute : nat; second : nat; microsecond : nat }.

Definition hm (h m : nat) : dt_time := mk_time h m 0 0.

Definition time_ltb (a b : dt_time) : bool :=
  (hour a <? hour b)%nat
  || ((hour a =? hour b)%nat
      && ((minute a <? minute b)%nat
          || ((minute a =? minute b)%nat
              && ((second a <? second b)%nat
                  || ((second a =? second b)%nat
                      && (microsecond a <? microsecond b)%nat))))).

Definition time_leb (a b : dt_time) : bool := negb (time_ltb b a).

Definition MARKET_SESSIONS_UTC : list (string * dt_time * dt_time) :=
  [ ("Sydney", hm 21 0, hm 6 0);
    ("Tokyo", hm 0 0, hm 9 0);
    ("London", hm 8 0, hm 17 0);
    ("New York", hm 13 0, hm 22 0) ].

(** The body of the [for ... in enumerate(MARKET_SESSIONS_UTC)] loop. *)
Definition is_open (start end_ utc_time : dt_time) : bool :=
  if time_ltb start end_
  then time_leb start utc_time && time_ltb utc_time end_
  else time_leb start utc_time || time_ltb utc_time end_.

Fixpoint collect_active (table : list (string * dt_time * dt_time))
    (utc_time : dt_time) (active_sessions : list string) : list string :=
  match table with
  | [] => active_sessions
  | (name, start, end_) :: rest =>
      collect_active rest utc_time
        (if is_open start end_ utc_time
         then active_sessions ++ [name] else active_sessions)
  end.

(** [for k in range(j + 1, len(active_sessions))]. *)
Definition overlaps_inner (active_sessions : list string) (j : nat)
    (overlaps : list string) : list string :=
  fold_left
    (fun ov k =>
       ov ++ [nth j active_sessions "" +:+ "+" +:+ nth k active_sessions ""])
    (seq (S j) (length active_sessions - S j)) overlaps.

(** [if len(active_sessions) > 1: for j in range(len(active_sessions))]. *)
Definition collect_overlaps (active_sessions : list string) : list string :=
  if (1 <? length active_sessions)%nat
  then fold_left (fun ov j => overlaps_inner active_sessions j ov)
         (seq 0 (length active_sessions)) []
  else [].

Definition session_of (table : list (string * dt_time * dt_time))
    (utc_time : dt_time) : string :=
  let active_sessions := collect_active table utc_time [] in
  let overlaps := collect_overlaps active_sessions in
  match overlaps with
  | _ :: _ => join " / " overlaps
  | [] =>
      match active_sessions with
      | _ :: _ => join " / " active_sessions
      | [] => "Closed"
      end
  end.

Definition session_str (utc_time : dt_time) : string :=
  session_of MARKET_SESSIONS_UTC utc_time.

(** The words of the specification: the strict and the weak order on
    times of day, the open-ness test, and "every pairwise overlap". *)
Definition time_lt (a b : dt_time) : Prop :=
  (hour a < hour b
   \/ hour a = hour b
      /\ (minute a < minute b
          \/ minute a = minute b
             /\ (second a < second b
                 \/ second a = second b
                    /\ microsecond a < microsecond b)))%nat.

Definition time_le (a b : dt_time) : Prop := ~ time_lt b a.

Definition open_spec (start end_ t : dt_time) : Prop :=
  (time_lt start end_ /\ time_le start t /\ time_lt t end_)
  \/ (~ time_lt start end_ /\ (time_le start t \/ time_lt t end_)).

Fixpoint pairwise (l : list string) : list string :=
  match l with
  | [] => []
  | a :: rest => map (fun b => a +:+ "+" +:+ b) rest ++ pairwise rest
  end.

Definition open_sessions (t : dt_time) : list string :=
  map (fun s => fst (fst s))
    (filter (fun s => is_open (snd (fst s)) (snd s) t = true)
       MARKET_SESSIONS_UTC).

(** ** The two orders agree with their boolean versions *)

Lemma time_ltb_lt a b : time_ltb a b = true <-> time_lt a b.
Proof.
  unfold time_ltb, time_lt.
  repeat (rewrite orb_true_iff || rewrite andb_true_iff).
  rewrite !Nat.ltb_lt, !Nat.eqb_eq. tauto.
Qed.

Lemma time_leb_le a b : time_leb a b = true <-> time_le a b.
Proof.
  unfold time_leb, time_le. rewrite negb_true_iff, <- time_ltb_lt.
  destruct (time_ltb b a); split; intros H; congruence.
Qed.

Lemma is_open_spec start end_ t :
  is_open start end_ t = true <-> open_spec start end_ t.
Proof.
  unfold is_open, open_spec.
  destruct (time_ltb start end_) eqn:Hse.
  - apply time_ltb_lt in Hse.
    rewrite andb_true_iff, time_leb_le, time_ltb_lt. tauto.
  - assert (~ time_lt start end_) as Hn
      by (rewrite <- time_ltb_lt; congruence).
    rewrite orb_true_iff, time_leb_le, time_ltb_lt. tauto.
Qed.

(** ** The loops, in closed form *)

Lemma collect_active_acc table t acc :
  collect_active table t acc = acc ++ collect_active table t [].
Proof.
  revert acc. induction table as [|[[name start] end_] rest IH]; intros acc.
  - simpl. by rewrite app_nil_r.
  - simpl. rewrite IH. rewrite (IH (if is_open start end_ t then _ else _)).
    destruct (is_open start end_ t); simpl; [|done].
    by rewrite <- app_assoc.
Qed.

Lemma collect_active_open_sessions t :
  collect_active MARKET_SESSIONS_UTC t [] = open_sessions t.
Proof.
  unfold open_sessions.
  induction MARKET_SESSIONS_UTC as [|[[name start] end_] rest IH]; [done|].
  simpl. rewrite collect_active_acc, IH, filter_cons. simpl.
  destruct (is_open start end_ t); by case_decide.
Qed.

Lemma inner_fold_closed (l : list string) (j : nat) (mid suf acc : list string)
    (pre : list string) (a : string) :
  l = pre ++ a :: mid ++ suf -> j = length pre ->
  fold_left
    (fun ov k => ov ++ [nth j l "" +:+ "+" +:+ nth k l ""])
    (seq (S j + length mid) (length suf)) acc
  = acc ++ map (fun b => a +:+ "+" +:+ b) suf.
Proof.
  intros Hl Hj.
  assert (nth j l "" = a) as -> by (subst l j; by rewrite nth_middle).
  revert mid acc Hl.
  induction suf as [|b suf IH]; intros mid acc Hl.
  - simpl. by rewrite app_nil_r.
  - simpl.
    assert (nth (S (j + length mid)) l "" = b) as ->.
    { subst l j.
      replace (pre ++ a :: mid ++ b :: suf)
        with ((pre ++ a :: mid) ++ b :: suf)
        by (by rewrite <- app_assoc).
      replace (S (length pre + length mid)) with (length (pre ++ a :: mid))
        by (rewrite length_app; simpl; lia).
      by rewrite nth_middle. }
    specialize (IH (mid ++ [b]) (acc ++ [a +:+ "+" +:+ b])).
    rewrite length_app in IH. simpl in IH.
    replace (S (S (j + length mid))) with (S (j + (length mid + 1))) by lia.
    rewrite IH; by rewrite <- app_assoc.
Qed.

Lemma overlaps_inner_closed (pre rest ov : list string) (a : string) :
  overlaps_inner (pre ++ a :: rest) (length pre) ov
  = ov ++ map (fun b => a +:+ "+" +:+ b) rest.
Proof.
  unfold overlaps_inner.
  replace (length (pre ++ a :: rest) - S (length pre))%nat with (length rest)
    by (rewrite length_app; simpl; lia).
  pose proof (inner_fold_closed (pre ++ a :: rest) (length pre) [] rest ov
                pre a eq_refl eq_refl) as H.
  simpl in H. by rewrite Nat.add_0_r in H.
Qed.

Lemma outer_fold_closed (l pre suf acc : list string) :
  l = pre ++ suf ->
  fold_left (fun ov j => overlaps_inner l j ov)
    (seq (length pre) (length suf)) acc
  = acc ++ pairwise suf.
Proof.
  revert pre acc. induction suf as [|a suf IH]; intros pre acc Hl.
  - simpl. by rewrite app_nil_r.
  - simpl. subst l. rewrite overlaps_inner_closed.
    specialize (IH (pre ++ [a]) (acc ++ map (fun b => a +:+ "+" +:+ b) suf)).
    rewrite length_app in IH. simpl in IH.
    replace (S (length pre)) with (length pre + 1)%nat by lia.
    rewrite IH; [by rewrite <- app_assoc | by rewrite <- app_assoc].
Qed.

Lemma collect_overlaps_pairwise (l : list string) :
  collect_overlaps l = pairwise l.
Proof.
  unfold collect_overlaps.
  destruct (Nat.ltb_spec 1 (length l)) as [Hlen|Hlen].
  - exact (outer_fold_closed l [] l [] eq_refl).
  - destruct l as [|a [|b l]]; simpl in *; [done|done|lia].
Qed.

(** ** The table has whole-hour bounds: only the hour of [t] matters *)

Lemma time_ltb_hm t h : time_ltb t (hm h 0) = (hour t <? h)%nat.
Proof.
  unfold time_ltb, hm. simpl.
  destruct (hour t <? h)%nat; [done|]. simpl.
  destruct (hour t =? h)%nat; [|done]. simpl.
  destruct (minute t =? 0)%nat; [|done]. simpl.
  destruct (second t =? 0)%nat; done.
Qed.

Lemma time_leb_hm t h : time_leb (hm h 0) t = (h <=? hour t)%nat.
Proof. unfold time_leb. by rewrite time_ltb_hm, Nat.leb_antisym. Qed.

Definition session_names : list string :=
  map (fun s => fst (fst s)) MARKET_SESSIONS_UTC.

Lemma open_sessions_cases t :
  open_sessions t ∈
    [ ["Sydney"; "Tokyo"]; ["Tokyo"]; ["Tokyo"; "London"]; ["London"];
      ["London"; "New York"]; ["New York"]; ["Sydney"; "New York"];
      ["Sydney"] ].
Proof.
  rewrite <- collect_active_open_sessions.
  unfold MARKET_SESSIONS_UTC, collect_active, is_open.
  rewrite !time_ltb_hm, !time_leb_hm.
  change (hour (hm 21 0)) with 21%nat.
  change (hour (hm 0 0)) with 0%nat.
  change (hour (hm 8 0)) with 8%nat.
  change (hour (hm 13 0)) with 13%nat.
  destruct (Nat.leb_spec 21 (hour t)), (Nat.ltb_spec (hour t) 6),
    (Nat.ltb_spec (hour t) 9), (Nat.leb_spec 8 (hour t)),
    (Nat.ltb_spec (hour t) 17), (Nat.leb_spec 13 (hour t)),
    (Nat.ltb_spec (hour t) 22);
    try lia; simpl; set_solver.
Qed.

Lemma session_of_open_sessions t :
  session_str t =
    match open_sessions t with
    | [] => "Closed"
    | [name] => name
    | l => join " / " (pairwise l)
    end.
Proof.
  unfold session_str, session_of.
  rewrite collect_active_open_sessions, collect_overlaps_pairwise.
  destruct (open_sessions t) as [|a [|b l]]; done.
Qed.

(** C5: a session is open by [start <= t < end] when [start < end] and by
    [t >= start or t < end] otherwise, over the table Sydney 21-06, Tokyo
    00-09, London 08-17, New York 13-22; the open sessions are the names,
    in table order, of the entries that pass the test; with more than one
    open the result is every pair "A+B" joined by " / ", with exactly one
    its name, with none "Closed".  09:30 gives "London" and 13:30 gives
    "London+New York". *)
Theorem session_classifier_spec (t : dt_time) :
  MARKET_SESSIONS_UTC =
    [ ("Sydney", hm 21 0, hm 6 0); ("Tokyo", hm 0 0, hm 9 0);
      ("London", hm 8 0, hm 17 0); ("New York", hm 13 0, hm 22 0) ]
  /\ (forall start end_ : dt_time,
        is_open start end_ t = true <-> open_spec start end_ t)
  /\ (forall name : string,
        name ∈ open_sessions t <->
        exists start end_,
          (name, start, end_) ∈ MARKET_SESSIONS_UTC
          /\ open_spec start end_ t)
  /\ session_str t =
       match open_sessions t with
       | [] => "Closed"
       | [name] => name
       | l => join " / " (pairwise l)
       end
  /\ session_str (hm 9 30) = "London"
  /\ session_str (hm 13 30) = "London+New York".
Proof.
  split; [done|].
  split; [intros; apply is_open_spec|].
  split.
  - intros name. unfold open_sessions. rewrite list_elem_of_fmap. split.
    + intros [[[n start] end_] [-> Hin]].
      apply list_elem_of_filter in Hin as [Hopen Hin]. simpl in *.
      exists start, end_. by rewrite <- is_open_spec.
    + intros (start & end_ & Hin & Hopen).
      exists (name, start, end_). split; [done|].
      apply list_elem_of_filter. simpl. by rewrite is_open_spec.
  - split; [apply session_of_open_sessions|]. split; reflexivity.
Qed.

(** C10: at every time of day at most two of the four sessions are open,
    so the classifier produces at most one overlap pair and its result is
    "Closed", one session name, or one pair "A+B". *)
Theorem at_most_two_sessions_open (t : dt_time) :
  (length (open_sessions t) <= 2)%nat
  /\ (length (collect_overlaps (collect_active MARKET_SESSIONS_UTC t []))
      <= 1)%nat
  /\ (session_str t = "Closed"
      \/ (exists a, a ∈ session_names /\ session_str t = a)
      \/ (exists a b,
            a ∈ session_names /\ b ∈ session_names
            /\ session_str t = a +:+ "+" +:+ b)).
Proof.
  rewrite collect_active_open_sessions, collect_overlaps_pairwise.
  rewrite session_of_open_sessions.
  pose proof (open_sessions_cases t) as H.
  unfold session_names, MARKET_SESSIONS_UTC. simpl.
  repeat (apply elem_of_cons in H as [->|H]); simpl;
    try (by apply elem_of_nil in H);
    (split; [lia|]); (split; [lia|]); right.
  all: first
    [ left; eexists; split; [|reflexivity]; set_solver
    | right; do 2 eexists; split; [|split; [|reflexivity]]; set_solver ].
Qed.

End Session.

(** * Python numbers *)

Module PyNum.

Local Open Scope Q_scope.

Definition Qgtb (x y : Q) : bool := negb (Qle_bool x y).
Definition Qltb (x y : Q) : bool := negb (Qle_bool y x).

(** Nearest integer, ties to the even one: Python 3's [round(x)]. *)
Definition round_half_even (x : Q) : Z :=
  let f := Qfloor x in
  match Qcompare (x - inject_Z f) (1 # 2) with
  | Lt => f
  | Gt => (f + 1)%Z
  | Eq => if Z.even f then f else (f + 1)%Z
  end.

Definition pow10 (ndigits : nat) : Q := inject_Z (10 ^ Z.of_nat ndigits).

(** [round(x, ndigits)] on the exact value. *)
Definition py_round (x : Q) (ndigits : nat) : Q :=
  inject_Z (round_half_even (x * pow10 ndigits)) / pow10 ndigits.

Lemma Qgtb_true x y : Qgtb x y = true <-> y < x.
Proof.
  unfold Qgtb. rewrite negb_true_iff.
  destruct (Qle_bool x y) eqn:E.
  - apply Qle_bool_iff in E. split; [discriminate|]. intros H. lra.
  - split; [intros _|done].
    apply Qnot_le_lt. intros H. apply Qle_bool_iff in H. congruence.
Qed.

Lemma Qgtb_false x y : Qgtb x y = false <-> x <= y.
Proof.
  unfold Qgtb. rewrite negb_false_iff. apply Qle_bool_iff.
Qed.


Lemma round_half_even_Z (z : Z) : round_half_even (inject_Z z) = z.
Proof.
  unfold round_half_even. rewrite Qfloor_Z.
  assert (Qcompare (inject_Z z - inject_Z z) (1 # 2) = Lt) as ->; [|done].
  rewrite <- Qlt_alt. lra.
Qed.

Lemma pow10_pos n : 0 < pow10 n.
Proof.
  unfold pow10. change 0 with (inject_Z 0). rewrite <- Zlt_Qlt.
  apply Z.pow_pos_nonneg; lia.
Qed.


Lemma py_round_exact (x : Q) (n : nat) (z : Z) :
  x * pow10 n == inject_Z z -> py_round x n == x.
Proof.
  intros H. unfold py_round. pose proof (pow10_pos n) as Hp.
  assert (round_half_even (x * pow10 n) = z) as ->.
  { unfold round_half_even.
    assert (Qfloor (x * pow10 n) = z) as Hf
      by (rewrite (Qfloor_comp _ _ H); apply Qfloor_Z).
    rewrite Hf.
    assert (Qcompare (x * pow10 n - inject_Z z) (1 # 2) = Lt) as ->; [|done].
    rewrite <- Qlt_alt. lra. }
  rewrite <- H. field. lra.
Qed.

End PyNum.

(** * Configuration constants (lines 16-17) *)

Definition PIP_VALUE_XAUUSD : Q := 1 # 10.
Definition USD_PER_PIP_PER_LOT : Q := 10 # 1.

(** * Stop-loss and take-profit fields of the entry form
      ([update_sl_from_pips] ... [update_tp_from_price], lines 1631-1709) *)

Module PipSync.

Import PyNum.
Local Open Scope Q_scope.

(** The Tk variables the four handlers read and write.  A [DoubleVar]
    is [None] when the text typed in its entry is not a number: [get()]
    then raises [TclError]. *)
Record form := mk_form
  { trade_type_var : string;
    entry_price_var : option Q;
    sl_pips_var : option Q;
    sl_price_var : option Q;
    tp_pips_var : option Q;
    tp_price_var : option Q;
    _sl_tp_is_updating : bool }.

Definition set_sl_price (v : Q) (st : form) : form :=
  mk_form (trade_type_var st) (entry_price_var st) (sl_pips_var st) (Some v)
    (tp_pips_var st) (tp_price_var st) (_sl_tp_is_updating st).

Definition set_sl_pips (v : Q) (st : form) : form :=
  mk_form (trade_type_var st) (entry_price_var st) (Some v) (sl_price_var st)
    (tp_pips_var st) (tp_price_var st) (_sl_tp_is_updating st).

Definition set_tp_price (v : Q) (st : form) : form :=
  mk_form (trade_type_var st) (entry_price_var st) (sl_pips_var st)
    (sl_price_var st) (tp_pips_var st) (Some v) (_sl_tp_is_updating st).

Definition set_tp_pips (v : Q) (st : form) : form :=
  mk_form (trade_type_var st) (entry_price_var st) (sl_pips_var st)
    (sl_price_var st) (Some v) (tp_price_var st) (_sl_tp_is_updating st).

Definition set_updating (b : bool) (st : form) : form :=
  mk_form (trade_type_var st) (entry_price_var st) (sl_pips_var st)
    (sl_price_var st) (tp_pips_var st) (tp_price_var st) b.

(** Each handler has the shape
      [if flag: return; flag = True; try: body except: pass;
       finally: update_..._loss(); flag = False].
    [body] is [None] when a [get()] raised.  The [finally] clause calls
    [update_sl_loss] / [update_tp_profit], which only fill the money
    labels and are left out.  A [set] inside the body fires the write
    trace of the variable (lines 420-423), which is the sibling handler;
    the flag is true then, so the sibling returns at its first line. *)
Definition guarded (body : form -> option form) (st : form) : form :=
  if _sl_tp_is_updating st then st
  else
    let st1 := set_updating true st in
    set_updating false (default st1 (body st1)).

Definition update_sl_from_pips : form -> form :=
  guarded (fun st =>
    entry ← entry_price_var st;
    pips ← sl_pips_var st;
    let price :=
      if String.eqb (trade_type_var st) "Buy"
      then entry - pips * PIP_VALUE_XAUUSD
      else entry + pips * PIP_VALUE_XAUUSD in
    cur ← sl_price_var st;
    Some (if Qgtb (Qabs (cur - price)) (1 # 1000000)
          then set_sl_price (py_round price 2) st else st)).

Definition update_sl_from_price : form -> form :=
  guarded (fun st =>
    entry ← entry_price_var st;
    price ← sl_price_var st;
    let pips :=
      if String.eqb (trade_type_var st) "Buy"
      then py_round ((entry - price) / PIP_VALUE_XAUUSD) 1
      else py_round ((price - entry) / PIP_VALUE_XAUUSD) 1 in
    cur ← sl_pips_var st;
    Some (if Qgtb (Qabs (cur - pips)) (1 # 1000000)
          then set_sl_pips pips st else st)).

Definition update_tp_from_pips : form -> form :=
  guarded (fun st =>
    entry ← entry_price_var st;
    pips ← tp_pips_var st;
    let price :=
      if String.eqb (trade_type_var st) "Buy"
      then entry + pips * PIP_VALUE_XAUUSD
      else entry - pips * PIP_VALUE_XAUUSD in
    cur ← tp_price_var st;
    Some (if Qgtb (Qabs (cur - price)) (1 # 1000000)
          then set_tp_price (py_round price 2) st else st)).

Definition update_tp_from_price : form -> form :=
  guarded (fun st =>
    entry ← entry_price_var st;
    price ← tp_price_var st;
    let pips :=
      if String.eqb (trade_type_var st) "Buy"
      then py_round ((price - entry) / PIP_VALUE_XAUUSD) 1
      else py_round ((entry - price) / PIP_VALUE_XAUUSD) 1 in
    cur ← tp_pips_var st;
    Some (if Qgtb (Qabs (cur - pips)) (1 # 1000000)
          then set_tp_pips pips st else st)).

(** The operations as the specification names them. *)
Inductive role := SL | TP.

Definition sign (direction : string) (r : role) : Q :=
  match r, String.eqb direction "Buy" with
  | SL, true => - 1
  | SL, false => 1
  | TP, true => 1
  | TP, false => - 1
  end.

Definition price_from_pips (entry pips : Q) (direction : string) (r : role)
    : Q :=
  entry + sign direction r * (pips * PIP_VALUE_XAUUSD).

(** The inverse map, before its rounding to one decimal. *)
Definition pips_from_price_exact (entry price : Q) (direction : string)
    (r : role) : Q :=
  sign direction r * (price - entry) / PIP_VALUE_XAUUSD.

Definition pips_from_price (entry price : Q) (direction : string) (r : role)
    : Q :=
  py_round (pips_from_price_exact entry price direction r) 1.

Definition pips_var (r : role) (st : form) : option Q :=
  match r with SL => sl_pips_var st | TP => tp_pips_var st end.

Definition price_var (r : role) (st : form) : option Q :=
  match r with SL => sl_price_var st | TP => tp_price_var st end.

Definition update_from_pips (r : role) : form -> form :=
  match r with SL => update_sl_from_pips | TP => update_tp_from_pips end.

Definition update_from_price (r : role) : form -> form :=
  match r with SL => update_sl_from_price | TP => update_tp_from_price end.

(** Buy at 2300.0, 0.04 pips typed in the stop-loss pips field. *)
Definition form_004 : form :=
  mk_form "Buy" (Some (2300 # 1)) (Some (1 # 25)) (Some 0) (Some 0) (Some 0)
    false.

(** ** What a handler leaves in the field it derives *)

Lemma guarded_idle body st :
  _sl_tp_is_updating st = false ->
  guarded body st
  = set_updating false
      (default (set_updating true st) (body (set_updating true st))).
Proof. intros H. unfold guarded. by rewrite H. Qed.

Lemma from_pips_written r st entry pips cur :
  _sl_tp_is_updating st = false ->
  entry_price_var st = Some entry ->
  pips_var r st = Some pips ->
  price_var r st = Some cur ->
  exists price,
    price == price_from_pips entry pips (trade_type_var st) r
    /\ price_var r (update_from_pips r st)
       = Some (if Qgtb (Qabs (cur - price)) (1 # 1000000)
               then py_round price 2 else cur).
Proof.
  intros Hflag Hentry Hpips Hcur.
  destruct r; simpl in *; unfold update_sl_from_pips, update_tp_from_pips;
    rewrite guarded_idle by done; simpl; rewrite Hentry, Hpips, Hcur; simpl;
    unfold price_from_pips, sign;
    destruct (String.eqb (trade_type_var st) "Buy");
    match goal with
    | |- context [py_round ?P 2] => exists P
    end;
    (split; [ring | simpl; destruct (Qgtb _ _); simpl; done]).
Qed.

Lemma from_price_written r st entry price cur :
  _sl_tp_is_updating st = false ->
  entry_price_var st = Some entry ->
  price_var r st = Some price ->
  pips_var r st = Some cur ->
  exists x,
    x == pips_from_price_exact entry price (trade_type_var st) r
    /\ pips_var r (update_from_price r st)
       = Some (if Qgtb (Qabs (cur - py_round x 1)) (1 # 1000000)
               then py_round x 1 else cur).
Proof.
  intros Hflag Hentry Hprice Hcur.
  destruct r; simpl in *; unfold update_sl_from_price, update_tp_from_price;
    rewrite guarded_idle by done; simpl; rewrite Hentry, Hprice, Hcur; simpl;
    unfold pips_from_price_exact, sign;
    destruct (String.eqb (trade_type_var st) "Buy");
    match goal with
    | |- context [py_round ?P 1] => exists P
    end;
    (split;
     [unfold PIP_VALUE_XAUUSD; field
     | simpl; destruct (Qgtb _ _); simpl; done]).
Qed.

Lemma price_pips_inverse entry direction r x :
  price_from_pips entry (pips_from_price_exact entry x direction r)
    direction r == x.
Proof.
  unfold price_from_pips, pips_from_price_exact, sign, PIP_VALUE_XAUUSD.
  destruct r, (String.eqb direction "Buy"); field.
Qed.







(** C6 (amended): the price a handler computes from the pips follows the
    sign convention (stop-loss: Buy [entry - pips*pip_value], otherwise
    [entry + pips*pip_value]; take-profit: the signs flipped); what it
    writes to the price field is that price rounded to 2 decimals, and it
    writes only when the field differs from the computed price by more
    than 1e-6.  The pips a handler derives from a price are the inverse
    image of the price under that map, rounded to 1 decimal, written
    under the same 1e-6 test. *)
Theorem price_written_follows_sign_convention
    (r : role) (st : form) (entry pips price : Q) :
  _sl_tp_is_updating st = false ->
  entry_price_var st = Some entry ->
  pips_var r st = Some pips ->
  price_var r st = Some price ->
  (exists computed,
     computed ==
       match r, String.eqb (trade_type_var st) "Buy" with
       | SL, true => entry - pips * PIP_VALUE_XAUUSD
       | SL, false => entry + pips * PIP_VALUE_XAUUSD
       | TP, true => entry + pips * PIP_VALUE_XAUUSD
       | TP, false => entry - pips * PIP_VALUE_XAUUSD
       end
     /\ computed == price_from_pips entry pips (trade_type_var st) r
     /\ price_var r (update_from_pips r st)
        = Some (if Qgtb (Qabs (price - computed)) (1 # 1000000)
                then py_round computed 2 else price))
  /\ (exists x,
        price_from_pips entry x (trade_type_var st) r == price
        /\ pips_var r (update_from_price r st)
           = Some (if Qgtb (Qabs (pips - py_round x 1)) (1 # 1000000)
                   then py_round x 1 else pips)).
Proof.
  intros Hflag Hentry Hpips Hprice. split.
  - destruct (from_pips_written r st entry pips price Hflag Hentry Hpips
                Hprice) as (computed & Hc & Hw).
    exists computed. split; [|done].
    rewrite Hc. unfold price_from_pips, sign.
    destruct r, (String.eqb (trade_type_var st) "Buy"); ring.
  - destruct (from_price_written r st entry price pips Hflag Hentry Hprice
                Hpips) as (x & Hx & Hw).
    exists x. split; [|done].
    unfold price_from_pips. rewrite Hx.
    exact (price_pips_inverse entry (trade_type_var st) r price).
Qed.

Lemma price_written_follows_sign_convention_witness :
  (exists computed,
     computed == (2300 # 1) - (1 # 25) * PIP_VALUE_XAUUSD
     /\ computed == price_from_pips (2300 # 1) (1 # 25) "Buy" SL
     /\ sl_price_var (update_sl_from_pips form_004)
        = Some (if Qgtb (Qabs (0 - computed)) (1 # 1000000)
                then py_round computed 2 else 0))
  /\ (exists x,
        price_from_pips (2300 # 1) x "Buy" SL == 0
        /\ sl_pips_var (update_sl_from_price form_004)
           = Some (if Qgtb (Qabs ((1 # 25) - py_round x 1)) (1 # 1000000)
                   then py_round x 1 else 1 # 25)).
Proof.
  exact (price_written_follows_sign_convention SL form_004 (2300 # 1)
           (1 # 25) 0 eq_refl eq_refl eq_refl eq_refl).
Defined.

(** Buy at 2300.0 with 0.04 pips of stop-loss: the price field receives
    2300.0, not [entry - pips * pip_value] = 2299.996. *)
Lemma price_field_is_rounded_cex :
  exists written,
    sl_price_var (update_sl_from_pips form_004) = Some written
    /\ ~ written == (2300 # 1) - (1 # 25) * PIP_VALUE_XAUUSD.
Proof.
  eexists. split; [vm_compute; reflexivity|]. intros H. discriminate H.
Qed.

End PipSync.

(** * Python strings: [str.strip] and [str.lower] on code points 0..255 *)

Module PyStr.

Definition is_space (c : ascii) : bool :=
  let n := nat_of_ascii c in
  ((9 <=? n) && (n <=? 13) || (28 <=? n) && (n <=? 32)
   || (n =? 133) || (n =? 160))%nat.

Fixpoint lstrip (s : string) : string :=
  match s with
  | EmptyString => EmptyString
  | String c rest => if is_space c then lstrip rest else s
  end.

Fixpoint rstrip (s : string) : string :=
  match s with
  | EmptyString => EmptyString
  | String c rest =>
      match rstrip rest with
      | EmptyString => if is_space c then EmptyString else String c EmptyString
      | kept => String c kept
      end
  end.

Definition strip (s : string) : string := rstrip (lstrip s).

Definition lower_char (c : ascii) : ascii :=
  let n := nat_of_ascii c in
  if ((65 <=? n) && (n <=? 90)
      || (192 <=? n) && (n <=? 222) && negb (n =? 215))%nat
  then ascii_of_nat (n + 32) else c.

Fixpoint lower (s : string) : string :=
  match s with
  | EmptyString => EmptyString
  | String c rest => String (lower_char c) (lower rest)
  end.

End PyStr.

(** * Trades, partial closes, closing, the review table and the
      statistics bar *)

Module Journal.

Import PyNum PyStr.
Local Open Scope Q_scope.

(** A partial close as [add_partial_close_entry] writes it (lines
    1174-1181) and as [Trade.from_dict] completes it: all keys present,
    the numeric ones holding numbers. *)
Record PartialClose := mk_partial
  { pc_timestamp : string;
    pc_amount : Q;
    pc_price : Q;
    pc_pips : Q;
    pc_reason_for_close : string;
    pc_pnl : Q }.

(** The keys of [trade.info] the handlers read; [add_trade] fills them
    from [DoubleVar]s. *)
Record Info := mk_info
  { trade_type : string;
    entry_price : Q;
    lot_size : Q;
    account_balance : Q }.

(** [trade.review]: five strings, all empty for a new trade. *)
Record Review := mk_review
  { outcome : string;
    price : string;
    notes : string;
    exit_time : string;
    max_drawdown_pips : string }.

Record Trade := mk_trade
  { info : Info;
    review : Review;
    partial_closes : list PartialClose;
    sl_to_be : bool }.

(** The message box a handler ends with. *)
Inductive message :=
  | WarnInvalidInput
  | WarnExceedsRemaining
  | WarnMissingReason
  | InfoPartialCloseAdded
  | ErrorBox.

(** [sum(pc.get("amount", 0.0) for pc in trade.partial_closes)]. *)
Definition closed_lots (pcs : list PartialClose) : Q :=
  fold_left (fun acc pc => acc + pc_amount pc) pcs 0.

(** [for pc in trade.partial_closes: total += pc.get("pnl", 0.0)]. *)
Definition partial_pnl (pcs : list PartialClose) : Q :=
  fold_left (fun acc pc => acc + pc_pnl pc) pcs 0.

(** [add_partial_close_entry] (lines 1152-1203).  [amount_var],
    [price_var], [pips_var] are the popup's [DoubleVar]s, [None] when
    [get()] raises; [now] is the formatted clock.  The handler also
    saves the journal and refreshes the views, which changes no trade. *)
Definition add_partial_close_entry (now : string)
    (amount_var price_var pips_var : option Q) (reason_var : string)
    (trade : Trade) : Trade * message :=
  match amount_var, price_var, pips_var with
  | Some amount, Some price, Some pips =>
      let reason_for_close := strip reason_var in
      if Qle_bool amount 0 || (Qeq_bool price 0 && Qeq_bool pips 0)
      then (trade, WarnInvalidInput)
      else
        let original_lot_size := lot_size (info trade) in
        let current_remaining_lots_before_this_partial :=
          original_lot_size - closed_lots (partial_closes trade) in
        if Qgtb amount
             (current_remaining_lots_before_this_partial + (1 # 10000))
        then (trade, WarnExceedsRemaining)
        else if String.eqb reason_for_close ""
        then (trade, WarnMissingReason)
        else
          let partial_pnl := pips * amount * USD_PER_PIP_PER_LOT in
          let new_partial :=
            mk_partial now amount price pips reason_for_close partial_pnl in
          (mk_trade (info trade) (review trade)
             (partial_closes trade ++ [new_partial]) (sl_to_be trade),
           InfoPartialCloseAdded)
  | _, _, _ => (trade, ErrorBox)
  end.

(** The block the three functions below share (lines 832-842, 921-929,
    1481-1490): the profit of the lots still open at [close_price]. *)
Definition pips_moved (trade_type : string) (entry_price close_price : Q)
    : Q :=
  if String.eqb trade_type "Buy"
  then (close_price - entry_price) / PIP_VALUE_XAUUSD
  else (entry_price - close_price) / PIP_VALUE_XAUUSD.

Definition remaining_lot_size (trade : Trade) : Q :=
  lot_size (info trade) - closed_lots (partial_closes trade).

Definition TERMINAL_OUTCOMES : list string :=
  ["Take Profit Hit"; "Stoploss Hit"; "Breakeven"; "Other"].

Section WithFloat.

(** Python's [float] on a string; [None] when it raises [ValueError]. *)
Variable py_float : string -> option Q.

(** [close_trade_update_balance] (lines 1461-1501): the trade and the
    account balance after the click. *)
Definition close_trade_update_balance
    (outcome_var close_price_var notes_text exit_time_var
       max_drawdown_pips_var : string) (sl_to_be_var : bool)
    (trade : Trade) (account_balance_var : Q) : Trade * Q :=
  let review' :=
    mk_review outcome_var close_price_var (strip notes_text) exit_time_var
      max_drawdown_pips_var in
  let final_pnl := partial_pnl (partial_closes trade) in
  let final_pnl :=
    match py_float (price review') with
    | Some close_price =>
        if Qgtb (remaining_lot_size trade) 0
        then final_pnl
             + pips_moved (trade_type (info trade))
                 (entry_price (info trade)) close_price
               * remaining_lot_size trade * USD_PER_PIP_PER_LOT
        else final_pnl
    | None => final_pnl
    end in
  (mk_trade (info trade) review' (partial_closes trade) sl_to_be_var,
   account_balance_var + final_pnl).

(** One row of [refresh_trades_tree] (lines 815-854): total P&L, total
    pips and the Win/Loss column. *)
Definition trade_row (trade : Trade) : Q * Q * string :=
  let total_pnl_for_display := partial_pnl (partial_closes trade) in
  let total_pips_for_display :=
    fold_left (fun acc pc => acc + pc_pips pc) (partial_closes trade) 0 in
  if bool_decide (outcome (review trade) ∈ TERMINAL_OUTCOMES)
  then
    match py_float (price (review trade)) with
    | Some close_price =>
        let '(total_pips_for_display, total_pnl_for_display) :=
          if Qgtb (remaining_lot_size trade) 0
          then
            let moved :=
              pips_moved (trade_type (info trade))
                (entry_price (info trade)) close_price in
            (total_pips_for_display + moved,
             total_pnl_for_display
             + moved * remaining_lot_size trade * USD_PER_PIP_PER_LOT)
          else (total_pips_for_display, total_pnl_for_display) in
        let win_loss_status :=
          if Qgtb total_pnl_for_display 0 then "Win"
          else if Qltb total_pnl_for_display 0 then "Loss"
          else "Breakeven" in
        (total_pnl_for_display, total_pips_for_display, win_loss_status)
    | None => (total_pnl_for_display, total_pips_for_display, "Open")
    end
  else (total_pnl_for_display, total_pips_for_display, "Open").

Definition total_pnl_for_display (trade : Trade) : Q :=
  fst (fst (trade_row trade)).

Definition win_loss_status (trade : Trade) : string := snd (trade_row trade).

End WithFloat.

(** [update_stats_bar] (lines 907-937): the counters of the bar. *)
Definition count_outcome (lowered : string) (trades : list Trade) : nat :=
  length
    (filter (fun t => lower (outcome (review t)) = lowered) trades).

Definition wins (trades : list Trade) : nat :=
  count_outcome "take profit hit" trades.

Definition losses (trades : list Trade) : nat :=
  count_outcome "stoploss hit" trades.

Definition win_rate (trades : list Trade) : Z :=
  let total := length trades in
  if (0 <? total)%nat
  then round_half_even
         (inject_Z (100 * Z.of_nat (wins trades))
          / inject_Z (Z.of_nat total))
  else 0%Z.

(** Sums as the specification writes them. *)
Definition sum_of (f : PartialClose -> Q) (pcs : list PartialClose) : Q :=
  fold_right (fun pc acc => f pc + acc) 0 pcs.

Definition final_pnl_spec (trade : Trade) (close_price : Q) : Q :=
  let remaining :=
    lot_size (info trade) - sum_of pc_amount (partial_closes trade) in
  sum_of pc_pnl (partial_closes trade)
  + (if Qlt_le_dec 0 remaining
     then pips_moved (trade_type (info trade)) (entry_price (info trade))
            close_price
          * remaining * USD_PER_PIP_PER_LOT
     else 0).

(** An instance of [float] to compute with: plain decimal literals,
    [[+-]digits[.digits]], which is what the review popup writes into
    the close-price field ([f"{tp_price:.2f}"], lines 1234-1240). *)
Definition digit (c : ascii) : option Z :=
  let n := nat_of_ascii c in
  if ((48 <=? n) && (n <=? 57))%nat then Some (Z.of_nat (n - 48)) else None.

Fixpoint digits_value (s : string) (acc : Z) : option Z :=
  match s with
  | EmptyString => Some acc
  | String c rest => d ← digit c; digits_value rest (10 * acc + d)%Z
  end.

Fixpoint split_dot (s : string) : string * string :=
  match s with
  | EmptyString => (EmptyString, EmptyString)
  | String c rest =>
      if Ascii.eqb c "."%char then (EmptyString, rest)
      else let '(whole, frac) := split_dot rest in (String c whole, frac)
  end.

Definition unsigned_decimal (s : string) : option Q :=
  let '(whole, frac) := split_dot s in
  if String.eqb whole "" && String.eqb frac "" then None
  else
    i ← digits_value whole 0;
    f ← digits_value frac 0;
    let scale := (10 ^ Z.of_nat (String.length frac))%Z in
    Some (Qmake (i * scale + f) (Z.to_pos scale)).

Definition decimal_float (s : string) : option Q :=
  match s with
  | String "-" rest => Qopp <$> unsigned_decimal rest
  | String "+" rest => unsigned_decimal rest
  | _ => unsigned_decimal s
  end.

(** A Buy of one lot at 2300.0 with no partial close yet. *)
Definition one_lot_buy : Trade :=
  mk_trade (mk_info "Buy" (2300 # 1) 1 (10000 # 1))
    (mk_review "" "" "" "" "") [] false.


Definition with_outcome (o : string) : Trade :=
  mk_trade (mk_info "Buy" (2300 # 1) 1 (10000 # 1))
    (mk_review o "" "" "" "") [] false.

(** ** Sums *)

Lemma fold_left_sum_of (f : PartialClose -> Q) pcs a :
  fold_left (fun acc pc => acc + f pc) pcs a == a + sum_of f pcs.
Proof.
  revert a. induction pcs as [|pc pcs IH]; intros a; simpl.
  - ring.
  - rewrite IH. ring.
Qed.

Lemma closed_lots_sum pcs : closed_lots pcs == sum_of pc_amount pcs.
Proof. unfold closed_lots. rewrite fold_left_sum_of. ring. Qed.

Lemma partial_pnl_sum pcs : partial_pnl pcs == sum_of pc_pnl pcs.
Proof. unfold partial_pnl. rewrite fold_left_sum_of. ring. Qed.

Lemma sum_of_snoc f pcs pc : sum_of f (pcs ++ [pc]) == sum_of f pcs + f pc.
Proof.
  induction pcs as [|x pcs IH]; simpl.
  - ring.
  - rewrite IH. ring.
Qed.

(** ** Partial closes *)

Lemma add_partial_close_entry_cases now amount_var price_var pips_var
    reason_var trade :
  (snd (add_partial_close_entry now amount_var price_var pips_var reason_var
          trade) <> InfoPartialCloseAdded
   /\ fst (add_partial_close_entry now amount_var price_var pips_var
            reason_var trade) = trade)
  \/ (exists amount price pips,
        amount_var = Some amount /\ price_var = Some price
        /\ pips_var = Some pips
        /\ amount
           <= lot_size (info trade) - closed_lots (partial_closes trade)
              + (1 # 10000)
        /\ add_partial_close_entry now amount_var price_var pips_var
             reason_var trade
           = (mk_trade (info trade) (review trade)
                (partial_closes trade
                 ++ [mk_partial now amount price pips (strip reason_var)
                       (pips * amount * USD_PER_PIP_PER_LOT)])
                (sl_to_be trade),
              InfoPartialCloseAdded)).
Proof.
  unfold add_partial_close_entry.
  destruct amount_var as [amount|], price_var as [price|],
    pips_var as [pips|]; try (left; split; [discriminate|reflexivity]).
  destruct (Qle_bool amount 0 || Qeq_bool price 0 && Qeq_bool pips 0);
    [left; split; [discriminate|reflexivity]|].
  destruct (Qgtb amount _) eqn:Hgt;
    [left; split; [discriminate|reflexivity]|].
  destruct (String.eqb (strip reason_var) "");
    [left; split; [discriminate|reflexivity]|].
  right. exists amount, price, pips. apply Qgtb_false in Hgt. done.
Qed.

(** C2 (amended): after an accepted insertion the amounts of the trade's
    partial closes sum to at most the initial lot size plus 0.0001; the
    new record is appended and nothing else of the trade changes.  A
    refused insertion leaves the trade as it was, and an amount above
    the remaining lot size plus 0.0001 is refused. *)
Theorem partial_close_insertion (now : string)
    (amount_var price_var pips_var : option Q) (reason_var : string)
    (trade trade' : Trade) (m : message) :
  add_partial_close_entry now amount_var price_var pips_var reason_var trade
  = (trade', m) ->
  (m = InfoPartialCloseAdded ->
     sum_of pc_amount (partial_closes trade')
     <= lot_size (info trade) + (1 # 10000)
     /\ (exists new_partial,
           partial_closes trade' = partial_closes trade ++ [new_partial]
           /\ Some (pc_amount new_partial) = amount_var)
     /\ info trade' = info trade
     /\ review trade' = review trade
     /\ sl_to_be trade' = sl_to_be trade)
  /\ (m <> InfoPartialCloseAdded -> trade' = trade)
  /\ (forall amount,
        amount_var = Some amount ->
        lot_size (info trade) - sum_of pc_amount (partial_closes trade)
        + (1 # 10000) < amount ->
        m <> InfoPartialCloseAdded /\ trade' = trade).
Proof.
  intros Hrun.
  destruct (add_partial_close_entry_cases now amount_var price_var pips_var
              reason_var trade) as [[Hm Ht]|Hacc].
  - rewrite Hrun in Hm, Ht. simpl in Hm, Ht. subst trade'.
    split; [done|]. split; [done|]. done.
  - destruct Hacc as (amount & price & pips & -> & -> & -> & Hle & Hres).
    rewrite Hrun in Hres. injection Hres as -> ->.
    rewrite closed_lots_sum in Hle. simpl.
    split; [intros _|split; [done|]].
    + split; [rewrite sum_of_snoc; simpl; lra|].
      split; [|done]. eexists. split; [reflexivity|done].
    + intros a [= <-] Hlt. lra.
Qed.

Lemma partial_close_insertion_witness :
  let run :=
    add_partial_close_entry "2026-01-05 10:00:00" (Some (100005 # 100000))
      (Some (2310 # 1)) (Some (100 # 1)) "Other" one_lot_buy in
  snd run = InfoPartialCloseAdded
  /\ sum_of pc_amount (partial_closes (fst run))
     <= lot_size (info one_lot_buy) + (1 # 10000).
Proof.
  split; [reflexivity|].
  exact (proj1 (proj1 (partial_close_insertion "2026-01-05 10:00:00"
                         (Some (100005 # 100000)) (Some (2310 # 1))
                         (Some (100 # 1)) "Other" one_lot_buy _ _ eq_refl)
                  eq_refl)).
Defined.

(** One lot, nothing closed yet, 1.00005 lots entered: the insertion is
    accepted and the partial closes then sum to more than the lot size. *)
Lemma partial_close_over_lot_size_cex :
  let run :=
    add_partial_close_entry "2026-01-05 10:00:00" (Some (100005 # 100000))
      (Some (2310 # 1)) (Some (100 # 1)) "Other" one_lot_buy in
  snd run = InfoPartialCloseAdded
  /\ lot_size (info one_lot_buy)
     < sum_of pc_amount (partial_closes (fst run)).
Proof. split; reflexivity. Qed.

(** ** Closing a trade *)

Lemma final_leg_spec (trade : Trade) (close_price : Q) :
  (if Qgtb (remaining_lot_size trade) 0
   then partial_pnl (partial_closes trade)
        + pips_moved (trade_type (info trade)) (entry_price (info trade))
            close_price
          * remaining_lot_size trade * USD_PER_PIP_PER_LOT
   else partial_pnl (partial_closes trade))
  == final_pnl_spec trade close_price.
Proof.
  unfold final_pnl_spec, remaining_lot_size.
  pose proof (closed_lots_sum (partial_closes trade)) as Hlots.
  pose proof (partial_pnl_sum (partial_closes trade)) as Hpnl.
  destruct (Qgtb _ 0) eqn:Hgt; destruct (Qlt_le_dec 0 _) as [Hpos|Hneg].
  - by rewrite Hlots, Hpnl.
  - apply Qgtb_true in Hgt. lra.
  - apply Qgtb_false in Hgt. lra.
  - rewrite Hpnl. ring.
Qed.



(** Without a number in the close-price field [float] raises, the
    handler warns, and only the partial-close P&L reaches the balance. *)
Lemma close_trade_without_price (py_float : string -> option Q)
    outcome_var close_price_var notes_text exit_time_var
    max_drawdown_pips_var sl_to_be_var trade balance :
  py_float close_price_var = None ->
  snd (close_trade_update_balance py_float outcome_var close_price_var
         notes_text exit_time_var max_drawdown_pips_var sl_to_be_var trade
         balance)
  == balance + sum_of pc_pnl (partial_closes trade).
Proof.
  intros Hprice. unfold close_trade_update_balance. simpl. rewrite Hprice.
  by rewrite partial_pnl_sum.
Qed.

(** ** The review table *)


Lemma trade_row_terminal (py_float : string -> option Q) trade close_price :
  outcome (review trade) ∈ TERMINAL_OUTCOMES ->
  py_float (price (review trade)) = Some close_price ->
  exists total,
    total_pnl_for_display py_float trade = total
    /\ total == final_pnl_spec trade close_price
    /\ win_loss_status py_float trade
       = (if Qgtb total 0 then "Win"
          else if Qltb total 0 then "Loss" else "Breakeven").
Proof.
  intros Hterm Hprice.
  unfold total_pnl_for_display, win_loss_status, trade_row.
  rewrite bool_decide_eq_true_2 by done. rewrite Hprice.
  pose proof (final_leg_spec trade close_price) as Hleg.
  destruct (Qgtb (remaining_lot_size trade) 0); simpl; eauto.
Qed.

Lemma trade_row_open (py_float : string -> option Q) trade :
  outcome (review trade) ∉ TERMINAL_OUTCOMES
  \/ py_float (price (review trade)) = None ->
  total_pnl_for_display py_float trade
  == sum_of pc_pnl (partial_closes trade)
  /\ win_loss_status py_float trade = "Open".
Proof.
  unfold total_pnl_for_display, win_loss_status, trade_row.
  intros [Hopen|Hprice].
  - rewrite bool_decide_eq_false_2 by done. simpl.
    split; [apply partial_pnl_sum|done].
  - rewrite Hprice. case_bool_decide; simpl;
      (split; [apply partial_pnl_sum|done]).
Qed.



(** ** The statistics bar *)









End Journal.

(** * Partial closes read from the journal file
      ([Trade.from_dict], lines 116-125) *)

Module Normalize.

(** The JSON values a field of a partial close holds. *)
Inductive pyval :=
  | VNone
  | VBool (b : bool)
  | VNum (q : Q)
  | VStr (s : string).

(** [dict.setdefault(k, v)] *)
Definition setdefault (k : string) (v : pyval) (pc : gmap string pyval)
    : gmap string pyval :=
  match pc !! k with
  | Some _ => pc
  | None => <[k := v]> pc
  end.

Definition is_None (v : pyval) : bool :=
  match v with VNone => true | _ => false end.

(** The body of [for pc in partial_closes_data]. *)
Definition normalize_partial_close (pc : gmap string pyval)
    : gmap string pyval :=
  let pc := setdefault "pips" (VNum 0) pc in
  let pc :=
    match pc !! "reason_for_close" with
    | Some _ => pc
    | None =>
        let pc :=
          match pc !! "notes" with
          | Some v =>
              if is_None v then <["reason_for_close" := VStr ""]> pc
              else <["reason_for_close" := v]> pc
          | None => <["reason_for_close" := VStr ""]> pc
          end in
        delete "notes" pc
    end in
  setdefault "pnl" (VNum 0) pc.

Definition normalize_partial_closes (partial_closes_data :
    list (gmap string pyval)) : list (gmap string pyval) :=
  map normalize_partial_close partial_closes_data.

(** A record of an older journal: a note instead of a reason, no P&L. *)
Definition legacy_partial_close : gmap string pyval :=
  <["timestamp" := VStr "2024-03-01 10:15:00"]>
    (<["amount" := VNum (1 # 2)]>
       (<["price" := VNum (2310 # 1)]> (<["notes" := VStr "abc"]> ∅))).

Lemma setdefault_lookup k v (pc : gmap string pyval) k' :
  setdefault k v pc !! k'
  = if decide (k = k')
    then Some (default v (pc !! k)) else pc !! k'.
Proof.
  unfold setdefault. destruct (pc !! k) as [w|] eqn:E.
  - case_decide; [by subst|done].
  - rewrite lookup_insert. by repeat case_decide.
Qed.

(** The record after normalisation, key by key. *)
Lemma normalize_lookup (pc : gmap string pyval) (k : string) :
  normalize_partial_close pc !! k
  = if decide (k = "pips") then Some (default (VNum 0) (pc !! "pips"))
    else if decide (k = "pnl") then Some (default (VNum 0) (pc !! "pnl"))
    else if decide (k = "reason_for_close") then
      Some match pc !! "reason_for_close" with
           | Some v => v
           | None =>
               match pc !! "notes" with
               | Some v => if is_None v then VStr "" else v
               | None => VStr ""
               end
           end
    else if decide (k = "notes") then
      match pc !! "reason_for_close" with
      | Some _ => pc !! "notes"
      | None => None
      end
    else pc !! k.
Proof.
  unfold normalize_partial_close.
  rewrite (setdefault_lookup "pnl").
  rewrite (setdefault_lookup "pips" _ _ "reason_for_close").
  rewrite (decide_False (P := "pips" = "reason_for_close")) by done.
  destruct (pc !! "reason_for_close") as [r|] eqn:Hr.
  - rewrite !setdefault_lookup.
    repeat case_decide; simplify_eq; try done; by rewrite ?Hr.
  - rewrite (setdefault_lookup "pips" _ _ "notes").
    rewrite (decide_False (P := "pips" = "notes")) by done.
    destruct (pc !! "notes") as [n|] eqn:Hn; [destruct (is_None n)|];
      repeat case_decide; simplify_eq; try done;
      rewrite ?lookup_delete_eq, ?lookup_delete_ne by done;
      rewrite ?lookup_insert_eq, ?lookup_insert_ne by done;
      rewrite ?setdefault_lookup; repeat case_decide; simplify_eq;
      by rewrite ?Hr, ?Hn.
Qed.



End Normalize.

(** * The playbook option store
      ([_add_playbook_item], lines 625-638; [save_playbook_options],
      lines 231-237) *)

Module Playbook.

Import PyStr.

Definition DEFAULT_SETUPS : list string :=
  ["Breakout"; "Reversal"; "Pullback"; "Trend Continuation"; "Range";
   "News Play"; "Other"].

Definition DEFAULT_PARTIAL_CLOSE_REASONS : list string :=
  [""; "Reached Partial TP 1"; "Reached Partial TP 2";
   "Minor Support/Resistance Hit"; "Candle Closed Against Me";
   "Volatility Spike"; "News Event Approaching"; "Time Based Exit";
   "Price Action Shift"; "Manual Intervention"; "Other"].

Definition SETUP_FILE : string := "playbook_data/setups.json".

(** [str <= str]: lexicographic on code points. *)
Definition str_le (a b : string) : Prop := String.leb a b = true.

#[local] Instance str_le_dec : RelDecision str_le.
Proof. intros a b. unfold str_le. apply _. Defined.

#[local] Instance str_le_total : Total str_le.
Proof. intros a b. apply String.leb_total. Qed.

(** [list.sort()] *)
Definition sort (l : list string) : list string := merge_sort str_le l.

(** The playbook files: path to the JSON array written last.  A write
    that raises is reported by [save_playbook_options] in an error box
    and is not modelled. *)
Definition save_playbook_options (options_list : list string)
    (filepath : string) (files : gmap string (list string))
    : gmap string (list string) :=
  <[filepath := options_list]> files.

Inductive message :=
  | WarnInputError
  | InfoDuplicate.

Record added := mk_added
  { options_list' : list string;
    files' : gmap string (list string);
    entry_var' : string;
    shown : option message }.

Definition _add_playbook_item (entry_var : string)
    (options_list : list string) (filepath : string)
    (files : gmap string (list string)) : added :=
  let new_item := strip entry_var in
  if negb (String.eqb new_item "") && bool_decide (new_item ∉ options_list)
  then
    let options_list := options_list ++ [new_item] in
    let options_list := sort options_list in
    mk_added options_list
      (save_playbook_options options_list filepath files) "" None
  else if String.eqb new_item ""
  then mk_added options_list files entry_var (Some WarnInputError)
  else mk_added options_list files entry_var (Some InfoDuplicate).

(** C8 (amended): the text of the entry is stripped of surrounding white
    space first.  An empty item is refused with the input-error box, a
    non-empty item already in the list (exact match) with the duplicate
    box, and both leave the list and the files as they were.  Any other
    item is appended, the list is sorted, and the sorted list is written
    to the file of the category at once. *)
Theorem add_playbook_item_spec (entry_var : string)
    (options_list : list string) (filepath : string)
    (files : gmap string (list string)) :
  let new_item := strip entry_var in
  let r := _add_playbook_item entry_var options_list filepath files in
  (new_item = "" ->
     shown r = Some WarnInputError
     /\ options_list' r = options_list /\ files' r = files)
  /\ (new_item <> "" -> new_item ∈ options_list ->
      shown r = Some InfoDuplicate
      /\ options_list' r = options_list /\ files' r = files)
  /\ (new_item <> "" -> new_item ∉ options_list ->
      shown r = None
      /\ options_list' r ≡ₚ options_list ++ [new_item]
      /\ Sorted str_le (options_list' r)
      /\ files' r !! filepath = Some (options_list' r)
      /\ forall other, other <> filepath ->
           files' r !! other = files !! other).
Proof.
  simpl. unfold _add_playbook_item.
  destruct (String.eqb_spec (strip entry_var) "") as [Hempty|Hitem]; simpl.
  - split; [done|]. split; intros Hne; by destruct Hne.
  - split; [done|]. split.
    + intros _ Hin. rewrite bool_decide_eq_false_2 by (intros Hn; by apply Hn).
      done.
    + intros _ Hnew. rewrite bool_decide_eq_true_2 by done. simpl.
      split; [done|]. split; [apply merge_sort_Permutation|].
      split; [apply (Sorted_merge_sort str_le)|].
      unfold save_playbook_options.
      split; [apply lookup_insert_eq|].
      intros other Hother. by apply lookup_insert_ne.
Qed.

Lemma add_playbook_item_spec_witness :
  let r := _add_playbook_item "  Scalp " DEFAULT_SETUPS SETUP_FILE ∅ in
  strip "  Scalp " = "Scalp"
  /\ shown r = None
  /\ options_list' r
     = ["Breakout"; "News Play"; "Other"; "Pullback"; "Range"; "Reversal";
        "Scalp"; "Trend Continuation"]
  /\ files' r !! SETUP_FILE = Some (options_list' r).
Proof.
  assert (strip "  Scalp " <> "") as Hne by (vm_compute; discriminate).
  assert (strip "  Scalp " ∉ DEFAULT_SETUPS) as Hnew
    by (apply (bool_decide_unpack _); vm_compute; exact I).
  pose (H := proj2 (proj2 (add_playbook_item_spec "  Scalp " DEFAULT_SETUPS
                             SETUP_FILE ∅)) Hne Hnew).
  split; [reflexivity|]. split; [exact (proj1 H)|].
  split; [vm_compute; reflexivity|].
  exact (proj1 (proj2 (proj2 (proj2 H)))).
Defined.

(** Two refusals the claim as written does not allow for: the empty
    item is in the default close reasons, yet adding it shows the
    input-error box, not the duplicate box; and " Other" is not in the
    list, yet adding it is refused as a duplicate. *)
Lemma add_empty_or_padded_item_cex :
  ("" ∈ DEFAULT_PARTIAL_CLOSE_REASONS)
  /\ shown (_add_playbook_item "" DEFAULT_PARTIAL_CLOSE_REASONS
             "playbook_data/close_reasons.json" ∅)
     = Some WarnInputError
  /\ (" Other" ∉ DEFAULT_SETUPS)
  /\ shown (_add_playbook_item " Other" DEFAULT_SETUPS SETUP_FILE ∅)
     = Some InfoDuplicate.
Proof.
  split; [apply (bool_decide_unpack _); vm_compute; exact I|].
  split; [reflexivity|].
  split; [apply (bool_decide_unpack _); vm_compute; exact I|reflexivity].
Qed.

End Playbook.

(** * The playbook option store, continued: edit, delete, load
      ([_edit_playbook_item], lines 640-670; [_delete_playbook_item],
      lines 672-685; [load_or_create], lines 208-223) *)

Module PlaybookStore.

Import PyStr Playbook.

#[local] Existing Instance str_le_dec.
#[local] Existing Instance str_le_total.

(** [list.index(x)]: the first position of [x], [None] for [ValueError]. *)
Fixpoint index (x : string) (l : list string) : option nat :=
  match l with
  | [] => None
  | y :: rest => if String.eqb y x then Some 0%nat else S <$> index x rest
  end.

(** [list.remove(x)] on a list that holds [x]: drops the first [x]. *)
Fixpoint remove (x : string) (l : list string) : list string :=
  match l with
  | [] => []
  | y :: rest => if String.eqb y x then rest else y :: remove x rest
  end.

Inductive outcome :=
  | Saved
  | SelectionError
  | InputError
  | NoChange
  | Duplicate
  | Declined
  | Absent
  | RaisedValueError.

Record store := mk_store
  { options : list string;
    files : gmap string (list string);
    entry : string;
    result : outcome }.

(** [selected] is the text of the selected row of the listbox,
    [listbox.get(selection[0])], and [None] without a selection. *)
Definition _edit_playbook_item (selected : option string)
    (entry_var : string) (options_list : list string) (filepath : string)
    (files : gmap string (list string)) : store :=
  match selected with
  | None => mk_store options_list files entry_var SelectionError
  | Some old_item =>
      let new_item := strip entry_var in
      if String.eqb new_item ""
      then mk_store options_list files entry_var InputError
      else if String.eqb new_item old_item
      then mk_store options_list files entry_var NoChange
      else if bool_decide (new_item ∈ options_list)
              && negb (String.eqb new_item old_item)
      then mk_store options_list files entry_var Duplicate
      else
        match index old_item options_list with
        | None => mk_store options_list files entry_var RaisedValueError
        | Some i =>
            let options_list := <[i := new_item]> options_list in
            let options_list := sort options_list in
            mk_store options_list
              (save_playbook_options options_list filepath files) "" Saved
        end
  end.

(** [confirmed] is the answer to the [askyesno] box. *)
Definition _delete_playbook_item (selected : option string)
    (confirmed : bool) (entry_var : string) (options_list : list string)
    (filepath : string) (files : gmap string (list string)) : store :=
  match selected with
  | None => mk_store options_list files entry_var SelectionError
  | Some item_to_delete =>
      if confirmed
      then
        if bool_decide (item_to_delete ∈ options_list)
        then
          let options_list := remove item_to_delete options_list in
          mk_store options_list
            (save_playbook_options options_list filepath files) entry_var
            Saved
        else mk_store options_list files entry_var Absent
      else mk_store options_list files entry_var Declined
  end.

(** What a playbook file holds: a JSON array of strings, or text that
    [json.load] rejects with [JSONDecodeError]. *)
Inductive content :=
  | Array (items : list string)
  | Corrupted.

(** [load_or_create]: the list, the files afterwards, and whether the
    "Corrupted playbook file" warning was shown. *)
Definition load_or_create (filepath : string) (default_list : list string)
    (disk : gmap string content)
    : list string * gmap string content * bool :=
  match disk !! filepath with
  | Some (Array items) => (items, disk, false)
  | Some Corrupted =>
      (default_list, <[filepath := Array default_list]> disk, true)
  | None => (default_list, <[filepath := Array default_list]> disk, false)
  end.

(** The files as [save_playbook_options] leaves them, read back. *)
Definition on_disk (files : gmap string (list string)) : gmap string content :=
  Array <$> files.

#[local] Instance outcome_eq_dec : EqDecision outcome.
Proof. solve_decision. Defined.

(** ** The order on strings *)

Lemma compare_not_Gt_trans (a b c : string) :
  String.compare a b <> Gt -> String.compare b c <> Gt ->
  String.compare a c <> Gt.
Proof.
  revert b c. induction a as [|x a IH]; intros [|y b] [|z c]; simpl;
    try congruence.
  unfold Ascii.compare.
  destruct (N.compare_spec (N_of_ascii x) (N_of_ascii y)) as [Hxy|Hxy|Hxy],
    (N.compare_spec (N_of_ascii y) (N_of_ascii z)) as [Hyz|Hyz|Hyz],
    (N.compare_spec (N_of_ascii x) (N_of_ascii z)) as [Hxz|Hxz|Hxz];
    try congruence; try lia.
  apply IH.
Qed.

#[local] Instance str_le_trans : Transitive str_le.
Proof.
  intros a b c. unfold str_le, String.leb. intros Hab Hbc.
  pose proof (compare_not_Gt_trans a b c) as H.
  destruct (String.compare a b), (String.compare b c),
    (String.compare a c); try done; exfalso; by apply H.
Qed.

#[local] Instance str_le_antisym : AntiSymm (=) str_le.
Proof. intros a b. apply String.leb_antisym. Qed.

Lemma str_le_refl (a : string) : str_le a a.
Proof. destruct (str_le_total a a); done. Qed.

(** ** [index], [remove] and the item list *)

Lemma index_elem_of (x : string) (l : list string) :
  x ∈ l -> exists i, index x l = Some i.
Proof.
  induction l as [|y l IH]; [by intros ?%elem_of_nil|].
  simpl. destruct (String.eqb_spec y x) as [->|Hne]; [eauto|].
  intros [?|Hin]%elem_of_cons; [congruence|].
  destruct (IH Hin) as [i ->]. eauto.
Qed.

Lemma index_Some (x : string) (l : list string) (i : nat) :
  index x l = Some i -> x ∈ l.
Proof.
  revert i. induction l as [|y l IH]; intros i; [done|].
  simpl. destruct (String.eqb_spec y x) as [->|Hne].
  - intros _. apply elem_of_cons. by left.
  - destruct (index x l) as [j|]; [|done].
    intros _. apply elem_of_cons. right. by apply (IH j).
Qed.

Lemma index_None (x : string) (l : list string) :
  index x l = None -> x ∉ l.
Proof.
  intros Hnone Hin. destruct (index_elem_of x l Hin) as [i Hi]. congruence.
Qed.

Lemma remove_Permutation (x : string) (l : list string) :
  x ∈ l -> l ≡ₚ x :: remove x l.
Proof.
  induction l as [|y l IH]; [by intros ?%elem_of_nil|].
  simpl. destruct (String.eqb_spec y x) as [->|Hne]; [done|].
  intros [?|Hin]%elem_of_cons; [congruence|].
  rewrite (IH Hin) at 1. apply Permutation_swap.
Qed.

Lemma insert_index_Permutation (old new : string) (l : list string) (i : nat) :
  index old l = Some i -> <[i := new]> l ≡ₚ new :: remove old l.
Proof.
  revert i. induction l as [|y l IH]; intros i; [done|].
  simpl. destruct (String.eqb_spec y old) as [->|Hne].
  - by intros [= <-].
  - destruct (index old l) as [j|] eqn:Hj; [|done].
    intros [= <-]. simpl. rewrite (IH j eq_refl). apply Permutation_swap.
Qed.

Lemma remove_subseteq (x : string) (l : list string) (y : string) :
  y ∈ remove x l -> y ∈ l.
Proof.
  induction l as [|z l IH]; [done|].
  simpl. destruct (String.eqb z x).
  - intros ?. by apply elem_of_cons; right.
  - intros [->|Hin]%elem_of_cons; apply elem_of_cons; [by left|].
    right. by apply IH.
Qed.

Lemma remove_NoDup (x : string) (l : list string) :
  NoDup l -> NoDup (remove x l) /\ x ∉ remove x l.
Proof.
  induction 1 as [|y l Hy Hl [IHn IHx]]; simpl.
  - split; [constructor|by intros ?%elem_of_nil].
  - destruct (String.eqb_spec y x) as [->|Hne]; [done|].
    split.
    + constructor; [|done]. intros Hin. by apply Hy, (remove_subseteq x).
    + intros [?|?]%elem_of_cons; [congruence|done].
Qed.

Lemma remove_Sorted (x : string) (l : list string) :
  Sorted str_le l -> Sorted str_le (remove x l).
Proof.
  intros Hs. apply Sorted_StronglySorted in Hs; [|apply _].
  apply StronglySorted_Sorted.
  induction Hs as [|y l Hs IH Hall]; simpl; [constructor|].
  destruct (String.eqb y x); [done|].
  constructor; [done|].
  rewrite Forall_forall in *. intros z Hz.
  apply Hall. by apply (remove_subseteq x).
Qed.

Lemma sort_Sorted (l : list string) : Sorted str_le (sort l).
Proof. apply (Sorted_merge_sort str_le). Qed.

Lemma sort_Permutation (l : list string) : sort l ≡ₚ l.
Proof. apply merge_sort_Permutation. Qed.

Lemma sort_of_sorted (l k : list string) :
  Sorted str_le l -> k ≡ₚ l -> sort k = l.
Proof.
  intros Hl Hk. apply (Sorted_unique str_le).
  - apply sort_Sorted.
  - done.
  - by rewrite sort_Permutation.
Qed.

(** ** Adding *)

(** X1: adding never creates a duplicate and never loses an item: a list
    without repetitions stays so, and every item that was in the list is
    still in it, whatever the entry holds. *)
Theorem add_keeps_items_unique (entry_var : string)
    (options_list : list string) (filepath : string)
    (files : gmap string (list string)) :
  let r := _add_playbook_item entry_var options_list filepath files in
  (NoDup options_list -> NoDup (options_list' r))
  /\ (forall x, x ∈ options_list -> x ∈ options_list' r)
  /\ (length (options_list' r) <= S (length options_list))%nat.
Proof.
  simpl. unfold _add_playbook_item.
  destruct (negb (String.eqb (strip entry_var) "")
            && bool_decide (strip entry_var ∉ options_list)) eqn:Hnew.
  - apply andb_true_iff in Hnew as [_ Hnew%bool_decide_eq_true_1]. simpl.
    split; [|split].
    + intros Hnd. unfold sort. rewrite merge_sort_Permutation.
      rewrite Permutation_app_comm. simpl. by constructor.
    + intros x Hx. rewrite sort_Permutation. apply elem_of_app. by left.
    + rewrite sort_Permutation, length_app. simpl. lia.
  - destruct (String.eqb (strip entry_var) ""); simpl;
      (split; [done|split; [done|lia]]).
Qed.

Lemma add_keeps_items_unique_witness :
  NoDup DEFAULT_SETUPS
  /\ NoDup (options_list'
             (_add_playbook_item "Scalp" DEFAULT_SETUPS SETUP_FILE ∅)).
Proof.
  assert (NoDup DEFAULT_SETUPS) as Hnd
    by (apply (bool_decide_unpack _); vm_compute; exact I).
  split; [exact Hnd|].
  exact (proj1 (add_keeps_items_unique "Scalp" DEFAULT_SETUPS SETUP_FILE ∅)
           Hnd).
Defined.

(** ** Editing *)

Lemma edit_saved_iff selected entry_var options_list filepath files :
  result (_edit_playbook_item selected entry_var options_list filepath files)
  = Saved
  <-> exists old_item,
        selected = Some old_item
        /\ strip entry_var <> ""
        /\ strip entry_var <> old_item
        /\ (strip entry_var ∉ options_list)
        /\ old_item ∈ options_list.
Proof.
  unfold _edit_playbook_item.
  destruct selected as [old_item|]; simpl.
  2: { split; [done|]. by intros (? & ? & _). }
  destruct (String.eqb_spec (strip entry_var) "") as [He|He]; simpl.
  { split; [done|]. intros (? & _ & ? & _). done. }
  destruct (String.eqb_spec (strip entry_var) old_item) as [Ho|Ho]; simpl.
  { split; [done|]. intros (? & [= <-] & _ & ? & _). done. }
  rewrite andb_true_r. case_bool_decide as Hin; simpl.
  { split; [done|]. intros (? & _ & _ & _ & ? & _). done. }
  destruct (index old_item options_list) as [i|] eqn:Hi; simpl.
  - split; [|done]. intros _. exists old_item.
    repeat split; try done. by apply (index_Some _ _ i).
  - split; [done|]. intros (? & [= <-] & _ & _ & _ & Hold).
    by apply index_None in Hi.
Qed.

Lemma edit_saved old_item entry_var options_list filepath files :
  let r :=
    _edit_playbook_item (Some old_item) entry_var options_list filepath
      files in
  result r = Saved ->
  options r ≡ₚ strip entry_var :: remove old_item options_list
  /\ Sorted str_le (options r)
  /\ length (options r) = length options_list
  /\ PlaybookStore.files r !! filepath = Some (options r)
  /\ entry r = "".
Proof.
  cbv zeta. intros Hsaved.
  apply edit_saved_iff in Hsaved
    as (old & [= <-] & He & Ho & Hnew & Hold).
  destruct (index_elem_of old_item options_list Hold) as [i Hi].
  unfold _edit_playbook_item.
  rewrite (proj2 (String.eqb_neq _ _) He), (proj2 (String.eqb_neq _ _) Ho).
  rewrite bool_decide_eq_false_2 by done. simpl. rewrite Hi. simpl.
  split; [by rewrite sort_Permutation, insert_index_Permutation|].
  split; [apply sort_Sorted|].
  split; [by rewrite sort_Permutation, length_insert|].
  split; [apply lookup_insert_eq|done].
Qed.

Lemma edit_rejected selected entry_var options_list filepath files :
  let r :=
    _edit_playbook_item selected entry_var options_list filepath files in
  result r <> Saved ->
  options r = options_list /\ PlaybookStore.files r = files
  /\ entry r = entry_var.
Proof.
  cbv zeta. unfold _edit_playbook_item.
  destruct selected as [old_item|]; [|done].
  destruct (String.eqb (strip entry_var) ""); [done|].
  destruct (String.eqb (strip entry_var) old_item); [done|].
  destruct (bool_decide _ && _); [done|].
  destruct (index old_item options_list); simpl; done.
Qed.

(** X2: an edit goes through exactly when a row is selected, the stripped
    entry is non-empty, differs from the selected item and is not in the
    list, and the selected item is in the list.  It then replaces one
    occurrence of the old item by the new one, sorts, writes the sorted
    list to the file and clears the entry; the list keeps its length.
    In every other case the list, the files and the entry are left as
    they were. *)
Theorem edit_playbook_item_spec (selected : option string)
    (entry_var : string) (options_list : list string) (filepath : string)
    (files : gmap string (list string)) :
  let r :=
    _edit_playbook_item selected entry_var options_list filepath files in
  (result r = Saved
   <-> exists old_item,
         selected = Some old_item
         /\ strip entry_var <> ""
         /\ strip entry_var <> old_item
         /\ (strip entry_var ∉ options_list)
         /\ old_item ∈ options_list)
  /\ (forall old_item,
        result r = Saved -> selected = Some old_item ->
        options r ≡ₚ strip entry_var :: remove old_item options_list
        /\ Sorted str_le (options r)
        /\ length (options r) = length options_list
        /\ PlaybookStore.files r !! filepath = Some (options r)
        /\ entry r = "")
  /\ (result r <> Saved ->
      options r = options_list /\ PlaybookStore.files r = files
      /\ entry r = entry_var).
Proof.
  simpl. split; [apply edit_saved_iff|]. split.
  - intros old_item Hsaved ->. by apply edit_saved.
  - apply edit_rejected.
Qed.

Lemma edit_playbook_item_spec_witness :
  let r :=
    _edit_playbook_item (Some "Range") " Ranging " DEFAULT_SETUPS SETUP_FILE
      ∅ in
  result r = Saved
  /\ options r
     = ["Breakout"; "News Play"; "Other"; "Pullback"; "Ranging"; "Reversal";
        "Trend Continuation"]
  /\ Sorted str_le (options r).
Proof.
  pose (H := proj1 (proj2 (edit_playbook_item_spec (Some "Range")
                             " Ranging " DEFAULT_SETUPS SETUP_FILE ∅))
               "Range" eq_refl eq_refl).
  split; [reflexivity|]. split; [vm_compute; reflexivity|].
  exact (proj1 (proj2 H)).
Defined.

(** X3: no edit creates a duplicate: on a list without repetitions the
    list after the handler has none either, whatever row is selected
    and whatever the entry holds. *)
Theorem edit_keeps_items_unique (selected : option string)
    (entry_var : string) (options_list : list string) (filepath : string)
    (files : gmap string (list string)) :
  NoDup options_list ->
  NoDup (options (_edit_playbook_item selected entry_var options_list
                    filepath files)).
Proof.
  intros Hnd.
  destruct (decide (result (_edit_playbook_item selected entry_var
                              options_list filepath files) = Saved))
    as [Hsaved|Hrej].
  - pose proof Hsaved as Hs.
    apply edit_saved_iff in Hs as (old & -> & He & Ho & Hnew & Hold).
    destruct (edit_saved old entry_var options_list filepath files Hsaved)
      as (Hperm & _).
    rewrite Hperm. constructor.
    + intros Hin. by apply Hnew, (remove_subseteq old).
    + by apply remove_NoDup.
  - by rewrite (proj1 (edit_rejected selected entry_var options_list
                         filepath files Hrej)).
Qed.

Lemma edit_keeps_items_unique_witness :
  NoDup DEFAULT_SETUPS
  /\ NoDup (options (_edit_playbook_item (Some "Range") "Ranging"
                       DEFAULT_SETUPS SETUP_FILE ∅)).
Proof.
  assert (NoDup DEFAULT_SETUPS) as Hnd
    by (apply (bool_decide_unpack _); vm_compute; exact I).
  split; [exact Hnd|].
  exact (edit_keeps_items_unique (Some "Range") "Ranging" DEFAULT_SETUPS
           SETUP_FILE ∅ Hnd).
Defined.

(** ** Deleting *)

Lemma delete_saved_iff selected confirmed entry_var options_list filepath
    files :
  result (_delete_playbook_item selected confirmed entry_var options_list
            filepath files) = Saved
  <-> exists item,
        selected = Some item /\ confirmed = true /\ item ∈ options_list.
Proof.
  unfold _delete_playbook_item.
  destruct selected as [item|]; simpl.
  2: { split; [done|by intros (? & ? & _)]. }
  destruct confirmed; simpl.
  2: { split; [done|by intros (? & _ & ? & _)]. }
  case_bool_decide as Hin; simpl.
  - split; [eauto|done].
  - split; [done|by intros (? & [= <-] & _ & ?)].
Qed.

Lemma delete_saved item confirmed entry_var options_list filepath files :
  let r :=
    _delete_playbook_item (Some item) confirmed entry_var options_list
      filepath files in
  result r = Saved ->
  options_list ≡ₚ item :: options r
  /\ PlaybookStore.files r !! filepath = Some (options r)
  /\ (NoDup options_list -> item ∉ options r).
Proof.
  cbv zeta. intros Hsaved.
  pose proof Hsaved as (? & [= <-] & -> & Hin)%delete_saved_iff.
  unfold _delete_playbook_item.
  rewrite bool_decide_eq_true_2 by done. simpl.
  split; [by apply remove_Permutation|].
  split; [apply lookup_insert_eq|].
  intros Hnd. by apply remove_NoDup.
Qed.

Lemma delete_rejected selected confirmed entry_var options_list filepath
    files :
  let r :=
    _delete_playbook_item selected confirmed entry_var options_list filepath
      files in
  result r <> Saved ->
  options r = options_list /\ PlaybookStore.files r = files.
Proof.
  cbv zeta. unfold _delete_playbook_item.
  destruct selected as [item|]; [|done].
  destruct confirmed; [|done].
  case_bool_decide; simpl; done.
Qed.

Lemma delete_keeps selected confirmed entry_var options_list filepath files :
  let r :=
    _delete_playbook_item selected confirmed entry_var options_list filepath
      files in
  (Sorted str_le options_list -> Sorted str_le (options r))
  /\ (NoDup options_list -> NoDup (options r)).
Proof.
  cbv zeta. unfold _delete_playbook_item.
  destruct selected as [item|]; [|done].
  destruct confirmed; [|done].
  case_bool_decide; simpl; [|done].
  split; [apply remove_Sorted|]. intros Hnd. by apply remove_NoDup.
Qed.

(** X4: a deletion goes through exactly when a row is selected, the
    question is answered yes and the item is in the list; it then takes
    out one occurrence of the item and writes the list to the file
    without sorting it again.  Otherwise list and files are untouched.
    A sorted list stays sorted, a list without repetitions stays so and
    no longer holds the deleted item. *)
Theorem delete_playbook_item_spec (selected : option string)
    (confirmed : bool) (entry_var : string) (options_list : list string)
    (filepath : string) (files : gmap string (list string)) :
  let r :=
    _delete_playbook_item selected confirmed entry_var options_list filepath
      files in
  (result r = Saved
   <-> exists item,
         selected = Some item /\ confirmed = true /\ item ∈ options_list)
  /\ (forall item,
        result r = Saved -> selected = Some item ->
        options_list ≡ₚ item :: options r
        /\ PlaybookStore.files r !! filepath = Some (options r)
        /\ (NoDup options_list -> item ∉ options r))
  /\ (result r <> Saved ->
      options r = options_list /\ PlaybookStore.files r = files)
  /\ (Sorted str_le options_list -> Sorted str_le (options r))
  /\ (NoDup options_list -> NoDup (options r)).
Proof.
  simpl. split; [apply delete_saved_iff|]. split; [|split].
  - intros item Hsaved ->. by apply delete_saved.
  - apply delete_rejected.
  - apply delete_keeps.
Qed.

Lemma delete_playbook_item_spec_witness :
  let r :=
    _delete_playbook_item (Some "Range") true "" DEFAULT_SETUPS SETUP_FILE
      ∅ in
  result r = Saved
  /\ options r
     = ["Breakout"; "Reversal"; "Pullback"; "Trend Continuation";
        "News Play"; "Other"]
  /\ ("Range" ∉ options r).
Proof.
  assert (NoDup DEFAULT_SETUPS) as Hnd
    by (apply (bool_decide_unpack _); vm_compute; exact I).
  pose (H := proj1 (proj2 (delete_playbook_item_spec (Some "Range") true ""
                             DEFAULT_SETUPS SETUP_FILE ∅))
               "Range" eq_refl eq_refl).
  split; [reflexivity|]. split; [reflexivity|].
  exact (proj2 (proj2 H) Hnd).
Defined.

(** ** Operations undone *)

Lemma add_accepted entry_var options_list filepath files :
  let r := _add_playbook_item entry_var options_list filepath files in
  strip entry_var <> "" ->
  strip entry_var ∉ options_list ->
  options_list' r ≡ₚ options_list ++ [strip entry_var]
  /\ Sorted str_le (options_list' r)
  /\ files' r !! filepath = Some (options_list' r).
Proof.
  cbv zeta. intros He Hnew. unfold _add_playbook_item.
  rewrite (proj2 (String.eqb_neq _ _) He).
  rewrite bool_decide_eq_true_2 by done. simpl.
  split; [apply sort_Permutation|].
  split; [apply sort_Sorted|].
  apply lookup_insert_eq.
Qed.

(** X5: on a sorted list, adding a new item and then deleting it gives
    back the list as it was, in memory and in the file. *)
Theorem add_then_delete_restores (entry_var tail : string)
    (options_list : list string) (filepath : string)
    (files : gmap string (list string)) :
  Sorted str_le options_list ->
  strip entry_var <> "" ->
  strip entry_var ∉ options_list ->
  let a := _add_playbook_item entry_var options_list filepath files in
  let d :=
    _delete_playbook_item (Some (strip entry_var)) true tail
      (options_list' a) filepath (files' a) in
  result d = Saved
  /\ options d = options_list
  /\ PlaybookStore.files d !! filepath = Some options_list.
Proof.
  intros Hs He Hnew. cbv zeta.
  destruct (add_accepted entry_var options_list filepath files He Hnew)
    as (Hperm & Hsorted & _).
  set (a := _add_playbook_item entry_var options_list filepath files) in *.
  assert (strip entry_var ∈ options_list' a) as Hin.
  { rewrite Hperm. apply elem_of_app. right. by apply list_elem_of_singleton. }
  destruct (delete_keeps (Some (strip entry_var)) true tail
              (options_list' a) filepath (files' a)) as (Hkeep & _).
  assert (result (_delete_playbook_item (Some (strip entry_var)) true tail
                    (options_list' a) filepath (files' a)) = Saved) as Hres
    by (apply delete_saved_iff; eauto).
  destruct (delete_saved _ _ _ _ _ _ Hres) as (Hp & Hfile & _).
  assert (options (_delete_playbook_item (Some (strip entry_var)) true tail
                     (options_list' a) filepath (files' a)) = options_list)
    as Heq.
  { apply (Sorted_unique str_le); [by apply Hkeep|done|].
    apply (Permutation_cons_inv (a := strip entry_var)).
    rewrite <- Hp, Hperm. apply Permutation_app_comm. }
  split; [done|]. split; [done|]. by rewrite Hfile, Heq.
Qed.

Lemma add_then_delete_restores_witness :
  let sorted_setups := sort DEFAULT_SETUPS in
  let a := _add_playbook_item " Scalp" sorted_setups SETUP_FILE ∅ in
  Sorted str_le sorted_setups
  /\ options (_delete_playbook_item (Some "Scalp") true ""
               (options_list' a) SETUP_FILE (files' a))
     = sorted_setups.
Proof.
  assert (strip " Scalp" <> "") as He by (vm_compute; discriminate).
  assert (strip " Scalp" ∉ sort DEFAULT_SETUPS) as Hnew
    by (apply (bool_decide_unpack _); vm_compute; exact I).
  split; [apply sort_Sorted|].
  exact (proj1 (proj2 (add_then_delete_restores " Scalp" ""
                         (sort DEFAULT_SETUPS) SETUP_FILE ∅
                         (sort_Sorted _) He Hnew))).
Defined.

(** X6: on a sorted list without repetitions, renaming an item and then
    renaming it back gives back the list as it was. *)
Theorem edit_then_edit_back_restores (old_item entry_var : string)
    (options_list : list string) (filepath : string)
    (files : gmap string (list string)) :
  Sorted str_le options_list ->
  NoDup options_list ->
  old_item ∈ options_list ->
  old_item <> "" ->
  strip old_item = old_item ->
  strip entry_var <> "" ->
  strip entry_var <> old_item ->
  strip entry_var ∉ options_list ->
  let e :=
    _edit_playbook_item (Some old_item) entry_var options_list filepath
      files in
  let b :=
    _edit_playbook_item (Some (strip entry_var)) old_item (options e)
      filepath (PlaybookStore.files e) in
  result e = Saved /\ result b = Saved /\ options b = options_list.
Proof.
  intros Hs Hnd Hold Hne Hstrip He Ho Hnew. cbv zeta.
  assert (result (_edit_playbook_item (Some old_item) entry_var options_list
                    filepath files) = Saved) as Hres
    by (apply edit_saved_iff; eauto 10).
  destruct (edit_saved _ _ _ _ _ Hres) as (Hperm & _).
  set (e := _edit_playbook_item (Some old_item) entry_var options_list
              filepath files) in *.
  pose proof (edit_saved_iff (Some (strip entry_var)) old_item (options e)
                filepath (PlaybookStore.files e)) as Hiff'.
  pose proof (edit_saved (strip entry_var) old_item (options e) filepath
                (PlaybookStore.files e)) as Hsaved'.
  cbv zeta in Hsaved'.
  set (b := _edit_playbook_item (Some (strip entry_var)) old_item
              (options e) filepath (PlaybookStore.files e)) in *.
  assert (strip entry_var ∈ options e) as Hin
    by (rewrite Hperm; apply elem_of_cons; by left).
  assert (result b = Saved) as Hres'.
  { apply Hiff'. exists (strip entry_var). rewrite Hstrip.
    repeat split; try done.
    rewrite Hperm. intros [?|Hin']%elem_of_cons; [congruence|].
    by apply (remove_NoDup old_item options_list Hnd). }
  destruct (Hsaved' Hres') as (Hperm' & Hsorted' & _).
  split; [done|]. split; [done|].
  apply (Sorted_unique str_le); [done|done|].
  rewrite Hperm', Hstrip.
  etransitivity; [|symmetry; apply (remove_Permutation old_item), Hold].
  apply Permutation_skip.
  apply (Permutation_cons_inv (a := strip entry_var)).
  by rewrite <- (remove_Permutation _ _ Hin), Hperm.
Qed.

Lemma edit_then_edit_back_restores_witness :
  let setups := sort DEFAULT_SETUPS in
  let e := _edit_playbook_item (Some "Range") "Ranging" setups SETUP_FILE ∅ in
  "Range" ∈ setups
  /\ options (_edit_playbook_item (Some "Ranging") "Range" (options e)
                SETUP_FILE (PlaybookStore.files e))
     = setups.
Proof.
  assert (NoDup (sort DEFAULT_SETUPS)) as Hnd
    by (apply (bool_decide_unpack _); vm_compute; exact I).
  assert ("Range" ∈ sort DEFAULT_SETUPS) as Hold
    by (apply (bool_decide_unpack _); vm_compute; exact I).
  assert (strip "Ranging" ∉ sort DEFAULT_SETUPS) as Hnew
    by (apply (bool_decide_unpack _); vm_compute; exact I).
  split; [exact Hold|].
  exact (proj2 (proj2 (edit_then_edit_back_restores "Range" "Ranging"
                         (sort DEFAULT_SETUPS) SETUP_FILE ∅ (sort_Sorted _)
                         Hnd Hold ltac:(discriminate) eq_refl
                         ltac:(vm_compute; discriminate)
                         ltac:(vm_compute; discriminate) Hnew))).
Defined.

(** ** Loading *)

(** X7: after [load_or_create] the file holds exactly the list that was
    returned, so loading it again returns the same list, changes nothing
    and shows no warning; the other files are never touched; the warning
    is shown exactly for a corrupted file; a missing or corrupted file
    gives the default list; and a list written by
    [save_playbook_options] is the list the next start loads. *)
Theorem load_or_create_settles (filepath : string)
    (default_list other_default : list string) (disk : gmap string content) :
  let loaded := load_or_create filepath default_list disk in
  let items := fst (fst loaded) in
  let disk' := snd (fst loaded) in
  disk' !! filepath = Some (Array items)
  /\ load_or_create filepath other_default disk' = (items, disk', false)
  /\ (forall other, other <> filepath -> disk' !! other = disk !! other)
  /\ (snd loaded = true <-> disk !! filepath = Some Corrupted)
  /\ (disk !! filepath = None \/ disk !! filepath = Some Corrupted ->
      items = default_list)
  /\ (forall saved files,
        load_or_create filepath default_list
          (on_disk (save_playbook_options saved filepath files))
        = (saved, on_disk (save_playbook_options saved filepath files),
           false)).
Proof.
  cbv zeta. unfold load_or_create.
  split; [|split; [|split; [|split; [|split]]]].
  - destruct (disk !! filepath) as [[items|]|] eqn:Hf; simpl;
      by rewrite ?lookup_insert_eq.
  - destruct (disk !! filepath) as [[items|]|] eqn:Hf; simpl;
      by rewrite ?lookup_insert_eq, ?Hf.
  - intros other Hother.
    destruct (disk !! filepath) as [[items|]|]; simpl;
      by rewrite ?lookup_insert_ne.
  - destruct (disk !! filepath) as [[items|]|]; simpl; split; done.
  - intros [-> | ->]; done.
  - intros saved files. unfold on_disk, save_playbook_options.
    by rewrite lookup_fmap, lookup_insert_eq.
Qed.

Lemma load_or_create_settles_witness :
  let disk : gmap string content := <[SETUP_FILE := Corrupted]> ∅ in
  disk !! SETUP_FILE = Some Corrupted
  /\ fst (fst (load_or_create SETUP_FILE DEFAULT_SETUPS disk))
     = DEFAULT_SETUPS
  /\ snd (load_or_create SETUP_FILE DEFAULT_SETUPS disk) = true.
Proof.
  pose (H := load_or_create_settles SETUP_FILE DEFAULT_SETUPS []
               (<[SETUP_FILE := Corrupted]> ∅)).
  assert ((<[SETUP_FILE := Corrupted]> ∅ : gmap string content)
          !! SETUP_FILE = Some Corrupted) as Hc
    by apply lookup_insert_eq.
  split; [exact Hc|].
  split; [exact (proj1 (proj2 (proj2 (proj2 (proj2 H)))) (or_intror Hc))|].
  exact (proj2 (proj1 (proj2 (proj2 (proj2 H)))) Hc).
Defined.

End PlaybookStore.

(** * The journal, continued: the statistics bar's P&L, runs of partial
      closes, closing and the table together *)

Module JournalRuns.

Import PyNum PyStr Journal.
Local Open Scope Q_scope.

(** [total_realized_pnl] of [update_stats_bar] (lines 909-931). *)
Definition total_realized_pnl (py_float : string -> option Q)
    (trades : list Trade) : Q :=
  fold_left
    (fun total_realized_pnl trade =>
       let total_realized_pnl :=
         fold_left (fun acc pc => acc + pc_pnl pc) (partial_closes trade)
           total_realized_pnl in
       if bool_decide (outcome (review trade) ∈ TERMINAL_OUTCOMES)
       then
         match py_float (price (review trade)) with
         | Some close_price =>
             if Qgtb (remaining_lot_size trade) 0
             then total_realized_pnl
                  + pips_moved (trade_type (info trade))
                      (entry_price (info trade)) close_price
                    * remaining_lot_size trade * USD_PER_PIP_PER_LOT
             else total_realized_pnl
         | None => total_realized_pnl
         end
       else total_realized_pnl)
    trades 0.

(** One click on "Add Partial Close": what the popup's variables hold. *)
Record attempt := mk_attempt
  { at_now : string;
    at_amount : option Q;
    at_price : option Q;
    at_pips : option Q;
    at_reason : string }.

Definition try_add (trade : Trade) (a : attempt) : Trade :=
  fst (add_partial_close_entry (at_now a) (at_amount a) (at_price a)
         (at_pips a) (at_reason a) trade).

(** Any number of clicks, one after the other. *)
Definition run (attempts : list attempt) (trade : Trade) : Trade :=
  fold_left try_add attempts trade.

(** What every record of the log satisfies once it went through
    [add_partial_close_entry]. *)
Definition well_formed (pc : PartialClose) : Prop :=
  0 < pc_amount pc
  /\ pc_reason_for_close pc <> ""
  /\ pc_pnl pc = pc_pips pc * pc_amount pc * USD_PER_PIP_PER_LOT
  /\ ~ (pc_price pc == 0 /\ pc_pips pc == 0).

Definition sum_totals (py_float : string -> option Q) (trades : list Trade)
    : Q :=
  fold_right (fun t acc => total_pnl_for_display py_float t + acc) 0 trades.

(** ** The bar and the table *)

Lemma stats_step (py_float : string -> option Q) (trade : Trade) (a : Q) :
  (let total :=
     fold_left (fun acc pc => acc + pc_pnl pc) (partial_closes trade) a in
   if bool_decide (outcome (review trade) ∈ TERMINAL_OUTCOMES)
   then
     match py_float (price (review trade)) with
     | Some close_price =>
         if Qgtb (remaining_lot_size trade) 0
         then total
              + pips_moved (trade_type (info trade))
                  (entry_price (info trade)) close_price
                * remaining_lot_size trade * USD_PER_PIP_PER_LOT
         else total
     | None => total
     end
   else total)
  == a + total_pnl_for_display py_float trade.
Proof.
  cbv zeta. unfold total_pnl_for_display, trade_row, partial_pnl.
  pose proof (fold_left_sum_of pc_pnl (partial_closes trade) a) as Ha.
  pose proof (fold_left_sum_of pc_pnl (partial_closes trade) 0) as H0.
  case_bool_decide; [|simpl; rewrite Ha, H0; ring].
  destruct (py_float (price (review trade))); [|simpl; rewrite Ha, H0; ring].
  destruct (Qgtb (remaining_lot_size trade) 0); simpl; rewrite Ha, H0; ring.
Qed.

(** X8: the "Realized P&L" of the statistics bar is the sum of the P&L
    column of the review table, for every journal and every [float]. *)
Theorem stats_bar_pnl_is_table_sum (py_float : string -> option Q)
    (trades : list Trade) :
  total_realized_pnl py_float trades == sum_totals py_float trades.
Proof.
  unfold total_realized_pnl.
  assert (forall a,
            fold_left
              (fun total_realized_pnl trade =>
                 let total_realized_pnl :=
                   fold_left (fun acc pc => acc + pc_pnl pc)
                     (partial_closes trade) total_realized_pnl in
                 if bool_decide (outcome (review trade) ∈ TERMINAL_OUTCOMES)
                 then
                   match py_float (price (review trade)) with
                   | Some close_price =>
                       if Qgtb (remaining_lot_size trade) 0
                       then total_realized_pnl
                            + pips_moved (trade_type (info trade))
                                (entry_price (info trade)) close_price
                              * remaining_lot_size trade
                              * USD_PER_PIP_PER_LOT
                       else total_realized_pnl
                   | None => total_realized_pnl
                   end
                 else total_realized_pnl)
              trades a
            == a + sum_totals py_float trades) as Hgen.
  { induction trades as [|t trades IH]; intros a; simpl.
    - ring.
    - rewrite IH. pose proof (stats_step py_float t a) as Hs.
      cbv zeta in Hs. rewrite Hs. ring. }
  rewrite Hgen. ring.
Qed.

(** ** Closing in two steps *)

Lemma final_pnl_spec_pos (trade : Trade) (close_price : Q) :
  0 < lot_size (info trade) - sum_of pc_amount (partial_closes trade) ->
  final_pnl_spec trade close_price
  == sum_of pc_pnl (partial_closes trade)
     + pips_moved (trade_type (info trade)) (entry_price (info trade))
         close_price
       * (lot_size (info trade) - sum_of pc_amount (partial_closes trade))
       * USD_PER_PIP_PER_LOT.
Proof.
  intros Hpos. unfold final_pnl_spec. cbv zeta.
  destruct (Qlt_le_dec 0 _); [reflexivity|lra].
Qed.

Lemma final_pnl_spec_nonpos (trade : Trade) (close_price : Q) :
  lot_size (info trade) - sum_of pc_amount (partial_closes trade) <= 0 ->
  final_pnl_spec trade close_price == sum_of pc_pnl (partial_closes trade).
Proof.
  intros Hpos. unfold final_pnl_spec. cbv zeta.
  destruct (Qlt_le_dec 0 _); [lra|ring].
Qed.

(** X9: when part of the position is closed at the pips the price has
    moved to some price, and the amount does not exceed what is left,
    the final P&L at that price is the same as without the partial
    close: the split does not change the total. *)
Theorem partial_close_splits_pnl (now : string) (amount price pips : Q)
    (reason_var : string) (trade trade' : Trade) (close_price : Q) :
  add_partial_close_entry now (Some amount) (Some price) (Some pips)
    reason_var trade
  = (trade', InfoPartialCloseAdded) ->
  pips == pips_moved (trade_type (info trade)) (entry_price (info trade))
            close_price ->
  amount <= lot_size (info trade) - sum_of pc_amount (partial_closes trade) ->
  final_pnl_spec trade' close_price == final_pnl_spec trade close_price.
Proof.
  intros Hrun Hpips Hle.
  destruct (add_partial_close_entry_cases now (Some amount) (Some price)
              (Some pips) reason_var trade) as [[Hm _]|Hacc].
  { rewrite Hrun in Hm. done. }
  destruct Hacc as (a & p & q & [= <-] & [= <-] & [= <-] & _ & Hres).
  assert (0 < amount) as Hpos.
  { unfold add_partial_close_entry in Hrun.
    destruct (Qle_bool amount 0) eqn:E; [simpl in Hrun; congruence|].
    apply Qnot_le_lt. intros H. apply Qle_bool_iff in H. congruence. }
  rewrite Hrun in Hres. injection Hres as ->.
  set (moved := pips_moved (trade_type (info trade))
                  (entry_price (info trade)) close_price) in *.
  pose proof (sum_of_snoc pc_amount (partial_closes trade)
                (mk_partial now amount price pips (strip reason_var)
                   (pips * amount * USD_PER_PIP_PER_LOT))) as Hlots.
  pose proof (sum_of_snoc pc_pnl (partial_closes trade)
                (mk_partial now amount price pips (strip reason_var)
                   (pips * amount * USD_PER_PIP_PER_LOT))) as Hpnl.
  simpl in Hlots, Hpnl.
  rewrite (final_pnl_spec_pos trade close_price) by lra.
  fold moved.
  destruct (Qlt_le_dec 0
              (lot_size (info trade)
               - sum_of pc_amount
                   (partial_closes trade
                    ++ [mk_partial now amount price pips (strip reason_var)
                          (pips * amount * USD_PER_PIP_PER_LOT)])))
    as [Hleft|Hnone].
  - rewrite final_pnl_spec_pos by exact Hleft. simpl.
    fold moved. rewrite Hlots, Hpnl, Hpips. ring.
  - rewrite final_pnl_spec_nonpos by exact Hnone. simpl.
    assert (amount
            == lot_size (info trade) - sum_of pc_amount (partial_closes trade))
      as Ha by lra.
    rewrite Hpnl, Hpips, <- Ha. ring.
Qed.

Lemma partial_close_splits_pnl_witness :
  let split :=
    fst (add_partial_close_entry "2026-01-05 10:00:00" (Some (1 # 2))
           (Some (2310 # 1)) (Some (100 # 1)) "Other" one_lot_buy) in
  final_pnl_spec split (2310 # 1) == final_pnl_spec one_lot_buy (2310 # 1)
  /\ final_pnl_spec one_lot_buy (2310 # 1) == 1000 # 1.
Proof.
  split; [|reflexivity].
  exact (partial_close_splits_pnl "2026-01-05 10:00:00" (1 # 2) (2310 # 1)
           (100 # 1) "Other" one_lot_buy _ (2310 # 1) eq_refl
           ltac:(reflexivity) ltac:(vm_compute; discriminate)).
Defined.

(** ** Runs of insertions *)

Lemma try_add_step (trade : Trade) (a : attempt) :
  try_add trade a = trade
  \/ exists new_partial,
       well_formed new_partial
       /\ try_add trade a
          = mk_trade (info trade) (review trade)
              (partial_closes trade ++ [new_partial]) (sl_to_be trade)
       /\ sum_of pc_amount (partial_closes trade ++ [new_partial])
          <= lot_size (info trade) + (1 # 10000).
Proof.
  unfold try_add, add_partial_close_entry.
  destruct (at_amount a) as [amount|], (at_price a) as [price|],
    (at_pips a) as [pips|]; try (by left).
  destruct (Qle_bool amount 0) eqn:Hamount; [by left|]. simpl.
  destruct (Qeq_bool price 0 && Qeq_bool pips 0) eqn:Hzero; [by left|].
  destruct (Qgtb amount _) eqn:Hgt; [by left|].
  destruct (String.eqb_spec (strip (at_reason a)) "") as [|Hreason];
    [by left|].
  right. eexists. split; [|split; [reflexivity|]].
  - unfold well_formed. simpl. repeat split; try done.
    + apply Qnot_le_lt. intros H. apply Qle_bool_iff in H. congruence.
    + intros [Hp Hq]. apply Qeq_bool_iff in Hp, Hq.
      rewrite Hp, Hq in Hzero. done.
  - apply Qgtb_false in Hgt. rewrite closed_lots_sum in Hgt.
    rewrite sum_of_snoc. simpl. lra.
Qed.

(** X10: whatever is clicked, in whatever order, the log of partial
    closes only grows at its end: the records that were there stay, in
    place; each new record has a positive amount, a non-empty reason,
    [pnl = pips * amount * 10] and not both price and pips zero; the rest
    of the trade is untouched; and once an insertion was accepted the
    amounts sum to at most the lot size plus 0.0001. *)
Theorem partial_close_log_is_append_only (attempts : list attempt)
    (trade : Trade) :
  let trade' := run attempts trade in
  info trade' = info trade
  /\ review trade' = review trade
  /\ sl_to_be trade' = sl_to_be trade
  /\ exists added,
       partial_closes trade' = partial_closes trade ++ added
       /\ Forall well_formed added
       /\ (length added <= length attempts)%nat
       /\ (added <> [] ->
           sum_of pc_amount (partial_closes trade')
           <= lot_size (info trade) + (1 # 10000)).
Proof.
  cbv zeta. unfold run. revert trade.
  induction attempts as [|a attempts IH]; intros trade; simpl.
  - repeat split; try done. exists []. rewrite app_nil_r.
    repeat split; [constructor|done|done].
  - destruct (try_add_step trade a) as [->|(new_partial & Hwf & -> & Hsum)].
    + destruct (IH trade) as (Hi & Hr & Hs & added & Hp & Hall & Hlen & Hb).
      repeat split; try done. exists added. repeat split; try done. lia.
    + destruct (IH (mk_trade (info trade) (review trade)
                      (partial_closes trade ++ [new_partial])
                      (sl_to_be trade)))
        as (Hi & Hr & Hs & added & Hp & Hall & Hlen & Hb).
      simpl in *. repeat split; try done.
      exists (new_partial :: added).
      split; [by rewrite Hp, <- app_assoc|].
      split; [by constructor|]. split; [simpl; lia|].
      intros _. destruct added as [|x added].
      * rewrite Hp, app_nil_r. exact Hsum.
      * by apply Hb.
Qed.

(** ** Closing and the table *)

Lemma close_trade_effect (py_float : string -> option Q)
    (outcome_var close_price_var notes_text exit_time_var
       max_drawdown_pips_var : string) (sl_to_be_var : bool)
    (trade : Trade) (balance close_price : Q) :
  py_float close_price_var = Some close_price ->
  let closed :=
    close_trade_update_balance py_float outcome_var close_price_var
      notes_text exit_time_var max_drawdown_pips_var sl_to_be_var trade
      balance in
  outcome (review (fst closed)) = outcome_var
  /\ price (review (fst closed)) = close_price_var
  /\ info (fst closed) = info trade
  /\ partial_closes (fst closed) = partial_closes trade
  /\ snd closed == balance + final_pnl_spec trade close_price.
Proof.
  intros Hprice. unfold close_trade_update_balance. simpl. rewrite Hprice.
  repeat (split; [reflexivity|]).
  by rewrite (final_leg_spec trade close_price).
Qed.

(** X11: when a trade is closed with one of the four terminal outcomes
    and a close price that is a number, the P&L the review table then
    shows for it is the amount the close added to the account balance.
    Closed with any other outcome, the balance changes all the same but
    the table keeps the trade as "Open" with only its partial-close
    P&L. *)
Theorem closed_trade_row_matches_balance (py_float : string -> option Q)
    (outcome_var close_price_var notes_text exit_time_var
       max_drawdown_pips_var : string) (sl_to_be_var : bool)
    (trade : Trade) (balance close_price : Q) :
  py_float close_price_var = Some close_price ->
  let closed :=
    close_trade_update_balance py_float outcome_var close_price_var
      notes_text exit_time_var max_drawdown_pips_var sl_to_be_var trade
      balance in
  (outcome_var ∈ TERMINAL_OUTCOMES ->
   balance + total_pnl_for_display py_float (fst closed) == snd closed)
  /\ (outcome_var ∉ TERMINAL_OUTCOMES ->
      win_loss_status py_float (fst closed) = "Open"
      /\ total_pnl_for_display py_float (fst closed)
         == sum_of pc_pnl (partial_closes trade)
      /\ snd closed == balance + final_pnl_spec trade close_price).
Proof.
  intros Hprice. cbv zeta.
  pose proof (close_trade_effect py_float outcome_var close_price_var
                notes_text exit_time_var max_drawdown_pips_var sl_to_be_var
                trade balance close_price Hprice) as Hc.
  cbv zeta in Hc. destruct Hc as (Hout & Hrev & Hinfo & Hpcs & Hbal).
  set (closed := close_trade_update_balance py_float outcome_var
                   close_price_var notes_text exit_time_var
                   max_drawdown_pips_var sl_to_be_var trade balance) in *.
  assert (final_pnl_spec (fst closed) close_price
          = final_pnl_spec trade close_price) as Hsame
    by (unfold final_pnl_spec; by rewrite Hinfo, Hpcs).
  split.
  - intros Hterm.
    destruct (trade_row_terminal py_float (fst closed) close_price)
      as (total & <- & Htot & _).
    + by rewrite Hout.
    + by rewrite Hrev.
    + by rewrite Htot, Hsame, Hbal.
  - intros Hopen.
    destruct (trade_row_open py_float (fst closed)) as (Htot & Hstatus).
    + left. by rewrite Hout.
    + split; [done|]. split; [by rewrite Htot, Hpcs|done].
Qed.

Lemma closed_trade_row_matches_balance_witness :
  let closed :=
    close_trade_update_balance decimal_float "Other" "2310.00" "" "" ""
      false one_lot_buy (10000 # 1) in
  snd closed == 11000 # 1
  /\ (10000 # 1) + total_pnl_for_display decimal_float (fst closed)
     == snd closed.
Proof.
  split; [reflexivity|].
  exact (proj1 (closed_trade_row_matches_balance decimal_float "Other"
                  "2310.00" "" "" "" false one_lot_buy (10000 # 1)
                  (231000 # 100) eq_refl)
           ltac:(apply (bool_decide_unpack _); vm_compute; exact I)).
Defined.

Lemma partial_close_log_is_append_only_witness :
  let clicks :=
    [mk_attempt "2026-01-05 10:00:00" (Some (1 # 2)) (Some (2310 # 1))
       (Some (100 # 1)) "Other";
     mk_attempt "2026-01-05 10:05:00" (Some (3 # 4)) (Some (2320 # 1))
       (Some (200 # 1)) "Other"] in
  length (partial_closes (run clicks one_lot_buy)) = 1%nat
  /\ sum_of pc_amount (partial_closes (run clicks one_lot_buy))
     <= lot_size (info one_lot_buy) + (1 # 10000).
Proof.
  split; [reflexivity|].
  destruct (partial_close_log_is_append_only
              [mk_attempt "2026-01-05 10:00:00" (Some (1 # 2))
                 (Some (2310 # 1)) (Some (100 # 1)) "Other";
               mk_attempt "2026-01-05 10:05:00" (Some (3 # 4))
                 (Some (2320 # 1)) (Some (200 # 1)) "Other"] one_lot_buy)
    as (_ & _ & _ & added & Hp & _ & _ & Hb).
  apply Hb. intros ->. discriminate Hp.
Defined.

(** ** The counters of the bar *)

Lemma round_half_even_le (x : Q) (z : Z) :
  x <= inject_Z z -> (round_half_even x <= z)%Z.
Proof.
  intros Hx. unfold round_half_even.
  pose proof (Qfloor_le x) as Hf.
  assert (Qfloor x <= z)%Z as Hfz by (rewrite Zle_Qle; lra).
  assert (0 < x - inject_Z (Qfloor x) -> (Qfloor x + 1 <= z)%Z) as Hup.
  { intros Hpos. assert (Qfloor x < z)%Z; [|lia]. rewrite Zlt_Qlt. lra. }
  destruct (Qcompare (x - inject_Z (Qfloor x)) (1 # 2)) eqn:E.
  - apply Qeq_alt in E. destruct (Z.even (Qfloor x)); [done|].
    apply Hup. lra.
  - done.
  - apply Qgt_alt in E. apply Hup. lra.
Qed.

Lemma round_half_even_ge (x : Q) (z : Z) :
  inject_Z z <= x -> (z <= round_half_even x)%Z.
Proof.
  intros Hx. unfold round_half_even.
  assert (z <= Qfloor x)%Z as Hfz.
  { rewrite <- (Qfloor_Z z). by apply Qfloor_resp_le. }
  destruct (Qcompare (x - inject_Z (Qfloor x)) (1 # 2));
    [destruct (Z.even (Qfloor x))|..]; lia.
Qed.

Lemma count_outcome_le (lowered : string) (trades : list Trade) :
  (count_outcome lowered trades <= length trades)%nat.
Proof. unfold count_outcome. apply length_filter. Qed.

Lemma wins_losses_disjoint (trades : list Trade) :
  (wins trades + losses trades <= length trades)%nat.
Proof.
  unfold wins, losses, count_outcome.
  induction trades as [|t trades IH]; [done|].
  rewrite !filter_cons.
  destruct (decide (lower (outcome (review t)) = "take profit hit")) as [E|];
    destruct (decide (lower (outcome (review t)) = "stoploss hit"));
    simpl; try lia.
  rewrite E in *. done.
Qed.

(** X12: in the statistics bar wins and losses together never exceed the
    trade count, and the win rate is a whole number between 0 and 100:
    0 when no trade is a win, 100 when every trade is one. *)
Theorem win_rate_bounds (trades : list Trade) :
  (wins trades + losses trades <= length trades)%nat
  /\ (0 <= win_rate trades <= 100)%Z
  /\ (wins trades = 0%nat -> win_rate trades = 0%Z)
  /\ (trades <> [] -> wins trades = length trades ->
      win_rate trades = 100%Z).
Proof.
  split; [apply wins_losses_disjoint|].
  pose proof (count_outcome_le "take profit hit" trades) as Hw.
  fold (wins trades) in Hw.
  unfold win_rate.
  destruct (Nat.ltb_spec 0 (length trades)) as [Hpos|Hzero].
  - assert (0 < inject_Z (Z.of_nat (length trades))) as Hq.
    { change 0 with (inject_Z 0). rewrite <- Zlt_Qlt. lia. }
    split; [split|split].
    + apply round_half_even_ge.
      apply Qle_shift_div_l; [done|].
      assert (inject_Z 0 <= inject_Z (100 * Z.of_nat (wins trades))) as H0
        by (rewrite <- Zle_Qle; lia).
      change (inject_Z 0) with 0 in *. lra.
    + apply round_half_even_le.
      apply Qle_shift_div_r; [done|]. rewrite <- inject_Z_mult.
      rewrite <- Zle_Qle. lia.
    + intros ->. reflexivity.
    + intros _ ->.
      assert (inject_Z (100 * Z.of_nat (length trades))
              / inject_Z (Z.of_nat (length trades)) == inject_Z 100) as E.
      { rewrite inject_Z_mult. field. lra. }
      unfold round_half_even. rewrite (Qfloor_comp _ _ E), Qfloor_Z.
      assert (Qcompare
                (inject_Z (100 * Z.of_nat (length trades))
                 / inject_Z (Z.of_nat (length trades)) - inject_Z 100)
                (1 # 2) = Lt) as ->; [|done].
      rewrite <- Qlt_alt. rewrite E. reflexivity.
  - split; [lia|]. split; [done|].
    intros Hne. destruct trades; [done|simpl in Hzero; lia].
Qed.

Lemma win_rate_bounds_witness :
  let trades := [with_outcome "Take Profit Hit"; with_outcome "take profit hit"] in
  wins trades = length trades /\ win_rate trades = 100%Z.
Proof.
  split; [reflexivity|].
  exact (proj2 (proj2 (proj2 (win_rate_bounds
           [with_outcome "Take Profit Hit"; with_outcome "take profit hit"])))
           ltac:(discriminate) eq_refl).
Defined.

End JournalRuns.

(** * Reading a trade from the journal file
      ([Trade.__init__], [Trade.to_dict], [Trade.from_dict],
      lines 58-137) *)

Module JournalFile.

Import Normalize.

(** A dict is falsy when it is empty: [x or default]. *)
Definition or_else {V : Type} (m fallback : gmap string V) : gmap string V :=
  if decide (m = ∅) then fallback else m.

Definition default_review : gmap string pyval :=
  <["outcome" := VStr ""]>
    (<["price" := VStr ""]>
       (<["notes" := VStr ""]>
          (<["exit_time" := VStr ""]>
             (<["max_drawdown_pips" := VStr ""]> ∅)))).

Definition default_slot : gmap string pyval :=
  <["before" := VNone]> (<["after" := VNone]> ∅).

Definition TIMEFRAMES : list string := ["D1"; "H4"; "H1"].

Definition default_tf_screenshots : gmap string (gmap string pyval) :=
  <["D1" := default_slot]>
    (<["H4" := default_slot]> (<["H1" := default_slot]> ∅)).

(** The attributes of a [Trade] object. *)
Record trade := mk_trade
  { symbol : string;
    timeframe : string;
    info : gmap string pyval;
    tf_screenshots : gmap string (gmap string pyval);
    review : gmap string pyval;
    partial_closes : list (gmap string pyval);
    sl_to_be : bool }.

(** [Trade.__init__] *)
Definition init (symbol timeframe : string) (info : gmap string pyval)
    (tf_screenshots : gmap string (gmap string pyval))
    (review : gmap string pyval)
    (partial_closes : list (gmap string pyval)) (sl_to_be : bool) : trade :=
  mk_trade symbol timeframe (or_else info ∅)
    (or_else tf_screenshots default_tf_screenshots)
    (or_else review default_review)
    partial_closes sl_to_be.

(** The JSON object of one trade: each key may be missing; a key that is
    there holds a value of the kind [to_dict] writes. *)
Record json_trade := mk_json
  { j_symbol : option string;
    j_timeframe : option string;
    j_info : option (gmap string pyval);
    j_tf_screenshots : option (gmap string (gmap string pyval));
    j_review : option (gmap string pyval);
    j_partial_closes : option (list (gmap string pyval));
    j_sl_to_be : option bool }.

Definition to_dict (t : trade) : json_trade :=
  mk_json (Some (symbol t)) (Some (timeframe t)) (Some (info t))
    (Some (tf_screenshots t)) (Some (review t)) (Some (partial_closes t))
    (Some (sl_to_be t)).

(** [{**default_review, **review_data}] *)
Definition merge_review (review_data : gmap string pyval)
    : gmap string pyval :=
  review_data ∪ default_review.

Definition complete_slot (slot : gmap string pyval) : gmap string pyval :=
  setdefault "after" VNone (setdefault "before" VNone slot).

(** The body of [for tf in default_tf_screenshots]. *)
Definition complete_timeframe (data : gmap string (gmap string pyval))
    (tf : string) : gmap string (gmap string pyval) :=
  match data !! tf with
  | None => <[tf := default_slot]> data
  | Some slot => <[tf := complete_slot slot]> data
  end.

Definition complete_screenshots (data : gmap string (gmap string pyval))
    : gmap string (gmap string pyval) :=
  fold_left complete_timeframe TIMEFRAMES data.

Definition from_dict (d : json_trade) : trade :=
  let review_data := merge_review (default ∅ (j_review d)) in
  let tf_screenshots_data :=
    complete_screenshots (default ∅ (j_tf_screenshots d)) in
  let partial_closes_data :=
    normalize_partial_closes (default [] (j_partial_closes d)) in
  let sl_to_be_val := default false (j_sl_to_be d) in
  init (default "" (j_symbol d)) (default "" (j_timeframe d))
    (default ∅ (j_info d)) tf_screenshots_data review_data
    partial_closes_data sl_to_be_val.

(** The dict [add_partial_close_entry] appends (lines 1174-1181). *)
Definition partial_to_dict (pc : Journal.PartialClose) : gmap string pyval :=
  <["timestamp" := VStr (Journal.pc_timestamp pc)]>
    (<["amount" := VNum (Journal.pc_amount pc)]>
       (<["price" := VNum (Journal.pc_price pc)]>
          (<["pips" := VNum (Journal.pc_pips pc)]>
             (<["reason_for_close" := VStr (Journal.pc_reason_for_close pc)]>
                (<["pnl" := VNum (Journal.pc_pnl pc)]> ∅))))).

Definition complete (t : trade) : Prop :=
  (forall k, k ∈ ["outcome"; "price"; "notes"; "exit_time";
                  "max_drawdown_pips"] -> is_Some (review t !! k))
  /\ (forall tf, tf ∈ TIMEFRAMES ->
        exists slot,
          tf_screenshots t !! tf = Some slot
          /\ is_Some (slot !! "before") /\ is_Some (slot !! "after"))
  /\ Forall (fun pc =>
               is_Some (pc !! "pips") /\ is_Some (pc !! "pnl")
               /\ is_Some (pc !! "reason_for_close"))
       (partial_closes t).

(** ** Partial closes *)

Lemma normalize_fixed (pc : gmap string pyval) :
  is_Some (pc !! "pips") -> is_Some (pc !! "pnl") ->
  is_Some (pc !! "reason_for_close") ->
  normalize_partial_close pc = pc.
Proof.
  intros [a Ha] [b Hb] [r Hr]. apply map_eq. intros k.
  rewrite normalize_lookup, Ha, Hb, Hr. simpl.
  repeat case_decide; by subst.
Qed.

Lemma normalize_has_keys (pc : gmap string pyval) :
  is_Some (normalize_partial_close pc !! "pips")
  /\ is_Some (normalize_partial_close pc !! "pnl")
  /\ is_Some (normalize_partial_close pc !! "reason_for_close").
Proof. rewrite !normalize_lookup. simpl. eauto. Qed.

(** X13: normalising a partial close twice is the same as normalising it
    once, and a record that has [pips], [pnl] and [reason_for_close] is
    not changed at all (its [notes], if any, are kept). *)
Theorem normalize_idempotent (pc : gmap string pyval) :
  normalize_partial_close (normalize_partial_close pc)
  = normalize_partial_close pc
  /\ (is_Some (pc !! "pips") -> is_Some (pc !! "pnl") ->
      is_Some (pc !! "reason_for_close") ->
      normalize_partial_close pc = pc).
Proof.
  split; [|apply normalize_fixed].
  destruct (normalize_has_keys pc) as (Hp & Hn & Hr).
  by apply normalize_fixed.
Qed.

Lemma normalize_idempotent_witness :
  normalize_partial_close (normalize_partial_close legacy_partial_close)
  = normalize_partial_close legacy_partial_close
  /\ normalize_partial_close (normalize_partial_close legacy_partial_close)
     !! "reason_for_close" = Some (VStr "abc").
Proof.
  split; [exact (proj1 (normalize_idempotent legacy_partial_close))|].
  rewrite (proj1 (normalize_idempotent legacy_partial_close)).
  vm_compute. reflexivity.
Defined.

(** X14: the record [add_partial_close_entry] appends to a trade goes
    through the loader's normalisation unchanged: what the application
    writes, it reads back as it is. *)
Theorem written_partial_close_is_normal (pc : Journal.PartialClose) :
  normalize_partial_close (partial_to_dict pc) = partial_to_dict pc.
Proof.
  apply normalize_fixed; unfold partial_to_dict;
    repeat (rewrite lookup_insert_ne by done);
    rewrite lookup_insert_eq; eauto.
Qed.

(** ** Review and screenshots *)

Lemma merge_review_lookup (review_data : gmap string pyval) (k : string) :
  merge_review review_data !! k
  = match review_data !! k with
    | Some v => Some v
    | None => default_review !! k
    end.
Proof.
  unfold merge_review. rewrite lookup_union.
  destruct (review_data !! k), (default_review !! k); done.
Qed.

Lemma default_review_keys (k : string) :
  is_Some (default_review !! k)
  <-> k ∈ ["outcome"; "price"; "notes"; "exit_time"; "max_drawdown_pips"].
Proof.
  unfold default_review. rewrite !elem_of_cons, elem_of_nil.
  rewrite !lookup_insert_is_Some'.
  pose proof (lookup_empty_is_Some (M := gmap string) (A := pyval) k).
  intuition congruence.
Qed.

Lemma merge_review_fixed (review_data : gmap string pyval) :
  (forall k, k ∈ ["outcome"; "price"; "notes"; "exit_time";
                  "max_drawdown_pips"] -> is_Some (review_data !! k)) ->
  merge_review review_data = review_data.
Proof.
  intros Hall. apply map_eq. intros k. rewrite merge_review_lookup.
  destruct (review_data !! k) as [v|] eqn:Hk; [done|].
  destruct (default_review !! k) as [w|] eqn:Hd; [|done].
  assert (is_Some (review_data !! k)) as [? ?]; [|congruence].
  apply Hall, default_review_keys. eauto.
Qed.

Lemma complete_slot_lookup (slot : gmap string pyval) (k : string) :
  complete_slot slot !! k
  = if decide (k = "after") then Some (default VNone (slot !! "after"))
    else if decide (k = "before") then Some (default VNone (slot !! "before"))
    else slot !! k.
Proof.
  unfold complete_slot. rewrite !setdefault_lookup.
  repeat case_decide; subst; try done.
Qed.

Lemma complete_slot_fixed (slot : gmap string pyval) :
  is_Some (slot !! "before") -> is_Some (slot !! "after") ->
  complete_slot slot = slot.
Proof.
  intros [b Hb] [a Ha]. apply map_eq. intros k.
  rewrite complete_slot_lookup, Ha, Hb. simpl.
  repeat case_decide; by subst.
Qed.

Definition slot_of (found : option (gmap string pyval)) : gmap string pyval :=
  match found with
  | None => default_slot
  | Some slot => complete_slot slot
  end.

Lemma slot_of_has_keys found :
  is_Some (slot_of found !! "before") /\ is_Some (slot_of found !! "after").
Proof.
  destruct found as [slot|]; simpl.
  - rewrite !complete_slot_lookup. simpl. eauto.
  - unfold default_slot. rewrite lookup_insert_eq, lookup_insert_ne by done.
    rewrite lookup_insert_eq. eauto.
Qed.

Lemma complete_timeframe_lookup data tf k :
  complete_timeframe data tf !! k
  = if decide (tf = k) then Some (slot_of (data !! tf)) else data !! k.
Proof.
  unfold complete_timeframe.
  destruct (data !! tf) as [slot|] eqn:Hslot; rewrite lookup_insert;
    by case_decide.
Qed.

Lemma complete_screenshots_lookup data k :
  complete_screenshots data !! k
  = if decide (k ∈ TIMEFRAMES) then Some (slot_of (data !! k))
    else data !! k.
Proof.
  unfold complete_screenshots, TIMEFRAMES. simpl.
  rewrite !complete_timeframe_lookup.
  rewrite !(decide_False (P := "D1" = "H4")) by done.
  rewrite !(decide_False (P := "D1" = "H1")) by done.
  rewrite !(decide_False (P := "H4" = "H1")) by done.
  destruct (decide ("H1" = k)) as [<-|H1].
  { rewrite decide_True; [done|]. rewrite !elem_of_cons. tauto. }
  destruct (decide ("H4" = k)) as [<-|H4].
  { rewrite decide_True; [done|]. rewrite !elem_of_cons. tauto. }
  destruct (decide ("D1" = k)) as [<-|D1].
  { rewrite decide_True; [done|]. rewrite !elem_of_cons. tauto. }
  rewrite decide_False; [done|].
  rewrite !elem_of_cons, elem_of_nil. intuition congruence.
Qed.

Lemma complete_screenshots_fixed data :
  (forall tf, tf ∈ TIMEFRAMES ->
     exists slot,
       data !! tf = Some slot
       /\ is_Some (slot !! "before") /\ is_Some (slot !! "after")) ->
  complete_screenshots data = data.
Proof.
  intros Hall. apply map_eq. intros k. rewrite complete_screenshots_lookup.
  case_decide as Hk; [|done].
  destruct (Hall k Hk) as (slot & -> & Hb & Ha). simpl.
  by rewrite complete_slot_fixed.
Qed.

Lemma merge_review_nonempty review_data : merge_review review_data <> ∅.
Proof.
  intros H. assert (merge_review review_data !! "outcome" = None) as Hn
    by (by rewrite H, lookup_empty).
  rewrite merge_review_lookup in Hn.
  destruct (review_data !! "outcome"); [done|].
  unfold default_review in Hn. by rewrite lookup_insert_eq in Hn.
Qed.

Lemma complete_screenshots_nonempty data : complete_screenshots data <> ∅.
Proof.
  intros H. assert (complete_screenshots data !! "D1" = None) as Hn
    by (by rewrite H, lookup_empty).
  rewrite complete_screenshots_lookup in Hn.
  rewrite decide_True in Hn; [done|]. unfold TIMEFRAMES.
  rewrite !elem_of_cons. tauto.
Qed.

(** ** The whole trade *)

Lemma from_dict_fields (d : json_trade) :
  from_dict d
  = mk_trade (default "" (j_symbol d)) (default "" (j_timeframe d))
      (default ∅ (j_info d))
      (complete_screenshots (default ∅ (j_tf_screenshots d)))
      (merge_review (default ∅ (j_review d)))
      (normalize_partial_closes (default [] (j_partial_closes d)))
      (default false (j_sl_to_be d)).
Proof.
  unfold from_dict, init, or_else. cbv zeta.
  rewrite (decide_False (P := complete_screenshots _ = ∅))
    by apply complete_screenshots_nonempty.
  rewrite (decide_False (P := merge_review _ = ∅))
    by apply merge_review_nonempty.
  by case_decide as Hinfo; [rewrite Hinfo|].
Qed.

Lemma from_dict_complete (d : json_trade) : complete (from_dict d).
Proof.
  rewrite from_dict_fields. unfold complete. simpl.
  split; [|split].
  - intros k Hk. rewrite merge_review_lookup.
    destruct (default ∅ (j_review d) !! k); [eauto|].
    by apply default_review_keys.
  - intros tf Htf. rewrite complete_screenshots_lookup.
    rewrite decide_True by done. eexists. split; [done|].
    apply slot_of_has_keys.
  - unfold normalize_partial_closes. apply Forall_forall.
    intros pc [raw [-> _]]%list_elem_of_fmap. apply normalize_has_keys.
Qed.

Lemma from_dict_to_dict (t : trade) : complete t -> from_dict (to_dict t) = t.
Proof.
  destruct t as [s tfr i tf r pcs sl]. intros (Hr & Htf & Hpcs).
  rewrite from_dict_fields. simpl in *. f_equal.
  - by apply complete_screenshots_fixed.
  - by apply merge_review_fixed.
  - unfold normalize_partial_closes.
    induction Hpcs as [|pc pcs (Hp & Hn & Hrs) _ IH]; [done|].
    simpl. f_equal; [by apply normalize_fixed|done].
Qed.

(** X15: whatever the JSON object of a trade leaves out, the trade read
    from it is complete: its review has the five keys, each of D1, H4
    and H1 has a [before] and an [after] slot, and every partial close
    has [pips], [pnl] and [reason_for_close].  Values the object
    provides are kept: a review key, a screenshot path and the fields
    of the trade that are there come out as they went in. *)
Theorem from_dict_is_complete (d : json_trade) :
  complete (from_dict d)
  /\ (forall review_data k v,
        j_review d = Some review_data -> review_data !! k = Some v ->
        review (from_dict d) !! k = Some v)
  /\ (forall data tf slot when path,
        j_tf_screenshots d = Some data -> data !! tf = Some slot ->
        slot !! when = Some path ->
        exists slot',
          tf_screenshots (from_dict d) !! tf = Some slot'
          /\ slot' !! when = Some path)
  /\ (j_review d = None -> review (from_dict d) = default_review)
  /\ (j_tf_screenshots d = None ->
      tf_screenshots (from_dict d) = default_tf_screenshots).
Proof.
  split; [apply from_dict_complete|].
  rewrite from_dict_fields. simpl.
  split; [|split; [|split]].
  - intros review_data k v -> Hk. simpl.
    by rewrite merge_review_lookup, Hk.
  - intros data tf slot when path -> Htf Hwhen. simpl.
    rewrite complete_screenshots_lookup.
    case_decide; [|eauto].
    rewrite Htf. simpl. eexists. split; [done|].
    rewrite complete_slot_lookup. repeat case_decide; subst;
      by rewrite ?Hwhen.
  - intros ->. simpl. unfold merge_review. by rewrite (left_id ∅ _).
  - intros ->. simpl. apply map_eq. intros k.
    rewrite complete_screenshots_lookup, lookup_empty. simpl.
    unfold default_tf_screenshots, TIMEFRAMES.
    rewrite !lookup_insert.
    case_decide as Hk.
    + rewrite !elem_of_cons, elem_of_nil in Hk.
      destruct Hk as [->|[->|[->|[]]]]; by repeat case_decide.
    + rewrite !elem_of_cons, elem_of_nil in Hk.
      repeat case_decide; subst; try done; exfalso; apply Hk; tauto.
Qed.

Lemma from_dict_is_complete_witness :
  let d :=
    mk_json (Some "XAUUSD") None None None
      (Some (<["outcome" := VStr "Other"]> ∅)) (Some [legacy_partial_close])
      None in
  review (from_dict d) !! "outcome" = Some (VStr "Other")
  /\ review (from_dict d) !! "price" = Some (VStr "")
  /\ tf_screenshots (from_dict d) = default_tf_screenshots.
Proof.
  pose (H := from_dict_is_complete
               (mk_json (Some "XAUUSD") None None None
                  (Some (<["outcome" := VStr "Other"]> ∅))
                  (Some [legacy_partial_close]) None)).
  split; [exact (proj1 (proj2 H) _ "outcome" (VStr "Other") eq_refl
                   (lookup_insert_eq _ _ _))|].
  split; [vm_compute; reflexivity|].
  exact (proj2 (proj2 (proj2 (proj2 H))) eq_refl).
Defined.

(** X16: a complete trade survives saving and loading: [from_dict] of
    its [to_dict] is the trade itself.  Since every trade read from a
    file is complete, loading, saving and loading again gives the same
    trade as loading once. *)
Theorem to_dict_from_dict (t : trade) (d : json_trade) :
  (complete t -> from_dict (to_dict t) = t)
  /\ from_dict (to_dict (from_dict d)) = from_dict d.
Proof.
  split; [apply from_dict_to_dict|].
  apply from_dict_to_dict, from_dict_complete.
Qed.

Lemma to_dict_from_dict_witness :
  let t :=
    init "XAUUSD" "1h" ∅ ∅ ∅
      [partial_to_dict
         (Journal.mk_partial "2026-01-05 10:00:00" (1 # 2) (2310 # 1)
            (100 # 1) "Other" (500 # 1))] false in
  complete t /\ from_dict (to_dict t) = t.
Proof.
  assert (complete
            (init "XAUUSD" "1h" ∅ ∅ ∅
               [partial_to_dict
                  (Journal.mk_partial "2026-01-05 10:00:00" (1 # 2)
                     (2310 # 1) (100 # 1) "Other" (500 # 1))] false)) as Hc.
  { split; [|split].
    - intros k Hk. by apply default_review_keys.
    - intros tf Htf. exists default_slot.
      split; [|apply (slot_of_has_keys None)].
      unfold TIMEFRAMES in Htf. rewrite !elem_of_cons, elem_of_nil in Htf.
      destruct Htf as [->|[->|[->|[]]]]; reflexivity.
    - constructor; [|constructor].
      split; [|split]; eexists; reflexivity. }
  split; [exact Hc|].
  exact (proj1 (to_dict_from_dict _ (mk_json None None None None None None
                                       None)) Hc).
Defined.

End JournalFile.

(** * The entry form, continued: repeated synchronisation, the money
      labels ([sync_all_sl_tp], [update_sl_loss], [update_tp_profit],
      lines 1711-1743) *)

Module EntryForm.

Import PyNum PipSync.
Local Open Scope Q_scope.

(** [sync_all_sl_tp], the write trace of the entry price, the lot size,
    the balance and the trade type (lines 424-427). *)
Definition sync_all_sl_tp (st : form) : form :=
  update_tp_from_pips (update_sl_from_pips st).



(** A price or an entry quoted to the cent. *)
Definition to_the_cent (x : Q) : Prop :=
  exists z : Z, x * (100 # 1) == inject_Z z.

(** ** The common shape of the four handlers *)

(** A handler reads the current value of the field it derives, the value
    that field should be close to and the value to write; it writes when
    the two differ by more than 1e-6, and does nothing while the flag is
    set or when a field holds no number. *)
Definition derive (read : form -> option (Q * Q * Q))
    (write : Q -> form -> form) (st : form) : form :=
  if _sl_tp_is_updating st then st
  else
    match read st with
    | Some (cur, target, value) =>
        if Qgtb (Qabs (cur - target)) (1 # 1000000) then write value st
        else st
    | None => st
    end.

Definition read_sl_pips (st : form) : option (Q * Q * Q) :=
  entry ← entry_price_var st;
  pips ← sl_pips_var st;
  cur ← sl_price_var st;
  let price :=
    if String.eqb (trade_type_var st) "Buy"
    then entry - pips * PIP_VALUE_XAUUSD
    else entry + pips * PIP_VALUE_XAUUSD in
  Some (cur, price, py_round price 2).

Definition read_tp_pips (st : form) : option (Q * Q * Q) :=
  entry ← entry_price_var st;
  pips ← tp_pips_var st;
  cur ← tp_price_var st;
  let price :=
    if String.eqb (trade_type_var st) "Buy"
    then entry + pips * PIP_VALUE_XAUUSD
    else entry - pips * PIP_VALUE_XAUUSD in
  Some (cur, price, py_round price 2).

Definition read_sl_price (st : form) : option (Q * Q * Q) :=
  entry ← entry_price_var st;
  price ← sl_price_var st;
  cur ← sl_pips_var st;
  let pips :=
    if String.eqb (trade_type_var st) "Buy"
    then py_round ((entry - price) / PIP_VALUE_XAUUSD) 1
    else py_round ((price - entry) / PIP_VALUE_XAUUSD) 1 in
  Some (cur, pips, pips).

Definition read_tp_price (st : form) : option (Q * Q * Q) :=
  entry ← entry_price_var st;
  price ← tp_price_var st;
  cur ← tp_pips_var st;
  let pips :=
    if String.eqb (trade_type_var st) "Buy"
    then py_round ((price - entry) / PIP_VALUE_XAUUSD) 1
    else py_round ((entry - price) / PIP_VALUE_XAUUSD) 1 in
  Some (cur, pips, pips).

Ltac form_cbn :=
  unfold set_updating, set_sl_price, set_sl_pips, set_tp_price, set_tp_pips;
  cbn [_sl_tp_is_updating entry_price_var sl_pips_var sl_price_var
       trade_type_var tp_pips_var tp_price_var mbind option_bind default
       from_option id].

Ltac same := match goal with |- ?x = ?x => reflexivity end.

Ltac split_guard :=
  match goal with
  | |- context [Qgtb (Qabs (?cur - ?v)) ?c] =>
      destruct (Qgtb (Qabs (cur - v)) c)
  end.

Ltac closed_form :=
  intros st; unfold guarded, derive;
  destruct st as [tt [e|] [sp|] [spr|] [tp|] [tpr|] [|]];
  form_cbn; try same; split_guard; form_cbn; same.

Lemma update_sl_from_pips_derive :
  forall st, update_sl_from_pips st = derive read_sl_pips set_sl_price st.
Proof. unfold update_sl_from_pips, read_sl_pips. closed_form. Qed.

Lemma update_tp_from_pips_derive :
  forall st, update_tp_from_pips st = derive read_tp_pips set_tp_price st.
Proof. unfold update_tp_from_pips, read_tp_pips. closed_form. Qed.

Lemma update_sl_from_price_derive :
  forall st, update_sl_from_price st = derive read_sl_price set_sl_pips st.
Proof. unfold update_sl_from_price, read_sl_price. closed_form. Qed.

Lemma update_tp_from_price_derive :
  forall st, update_tp_from_price st = derive read_tp_price set_tp_pips st.
Proof. unfold update_tp_from_price, read_tp_price. closed_form. Qed.

Section Derive.

Variable read : form -> option (Q * Q * Q).
Variable write : Q -> form -> form.

Hypothesis write_flag :
  forall v st, _sl_tp_is_updating (write v st) = _sl_tp_is_updating st.
Hypothesis read_write :
  forall v st cur target value,
    read st = Some (cur, target, value) ->
    read (write v st) = Some (v, target, value).
Hypothesis write_write : forall v w st, write v (write w st) = write v st.

Lemma derive_settles (st : form) :
  derive read write (derive read write st) = derive read write st.
Proof using write_flag read_write write_write.
  unfold derive.
  destruct (_sl_tp_is_updating st) eqn:Hflag; [by rewrite Hflag|].
  destruct (read st) as [[[cur target] value]|] eqn:Hread;
    [|by rewrite Hflag, Hread].
  destruct (Qgtb (Qabs (cur - target)) (1 # 1000000)) eqn:Hguard;
    [|by rewrite Hflag, Hread, Hguard].
  rewrite write_flag, Hflag, (read_write _ _ _ _ _ Hread).
  destruct (Qgtb (Qabs (value - target)) (1 # 1000000)); [|done].
  apply write_write.
Qed.

Lemma derive_frame {A : Type} (field : form -> A) (st : form) :
  (forall v s, field (write v s) = field s) ->
  field (derive read write st) = field st.
Proof using Type.
  intros Hframe. unfold derive.
  destruct (_sl_tp_is_updating st); [done|].
  destruct (read st) as [[[cur target] value]|]; [|done].
  by destruct (Qgtb _ _).
Qed.

End Derive.

Lemma derive_commute (read1 read2 : form -> option (Q * Q * Q))
    (write1 write2 : Q -> form -> form) (st : form) :
  (forall v s, _sl_tp_is_updating (write1 v s) = _sl_tp_is_updating s) ->
  (forall v s, _sl_tp_is_updating (write2 v s) = _sl_tp_is_updating s) ->
  (forall v s, read1 (write2 v s) = read1 s) ->
  (forall v s, read2 (write1 v s) = read2 s) ->
  (forall v w s, write1 v (write2 w s) = write2 w (write1 v s)) ->
  derive read1 write1 (derive read2 write2 st)
  = derive read2 write2 (derive read1 write1 st).
Proof.
  intros Hf1 Hf2 Hr12 Hr21 Hww. unfold derive.
  destruct (_sl_tp_is_updating st) eqn:Hflag; [by rewrite !Hflag|].
  destruct (read1 st) as [[[c1 t1] v1]|] eqn:H1,
    (read2 st) as [[[c2 t2] v2]|] eqn:H2;
    repeat first
      [ rewrite Hflag | rewrite H1 | rewrite H2 | rewrite Hf1 | rewrite Hf2
      | rewrite Hr12 | rewrite Hr21
      | match goal with
        | |- context [Qgtb (Qabs (?a - ?b)) ?c] =>
            destruct (Qgtb (Qabs (a - b)) c) eqn:?
        end ];
    done.
Qed.

(** ** The four handlers fit the shape *)

Lemma set_keeps_flag :
  (forall v st, _sl_tp_is_updating (set_sl_price v st)
                = _sl_tp_is_updating st)
  /\ (forall v st, _sl_tp_is_updating (set_tp_price v st)
                   = _sl_tp_is_updating st)
  /\ (forall v st, _sl_tp_is_updating (set_sl_pips v st)
                   = _sl_tp_is_updating st)
  /\ (forall v st, _sl_tp_is_updating (set_tp_pips v st)
                   = _sl_tp_is_updating st).
Proof. by repeat split. Qed.

Lemma read_after_write_sl_pips v st cur target value :
  read_sl_pips st = Some (cur, target, value) ->
  read_sl_pips (set_sl_price v st) = Some (v, target, value).
Proof.
  unfold read_sl_pips. destruct st as [tt [e|] [sp|] [spr|] tp tpr flag];
    form_cbn; try done. by intros [= <- <- <-].
Qed.

Lemma read_after_write_tp_pips v st cur target value :
  read_tp_pips st = Some (cur, target, value) ->
  read_tp_pips (set_tp_price v st) = Some (v, target, value).
Proof.
  unfold read_tp_pips. destruct st as [tt [e|] sp spr [tp|] [tpr|] flag];
    form_cbn; try done. by intros [= <- <- <-].
Qed.

Lemma read_after_write_sl_price v st cur target value :
  read_sl_price st = Some (cur, target, value) ->
  read_sl_price (set_sl_pips v st) = Some (v, target, value).
Proof.
  unfold read_sl_price. destruct st as [tt [e|] [sp|] [spr|] tp tpr flag];
    form_cbn; try done. by intros [= <- <- <-].
Qed.

Lemma read_after_write_tp_price v st cur target value :
  read_tp_price st = Some (cur, target, value) ->
  read_tp_price (set_tp_pips v st) = Some (v, target, value).
Proof.
  unfold read_tp_price. destruct st as [tt [e|] sp spr [tp|] [tpr|] flag];
    form_cbn; try done. by intros [= <- <- <-].
Qed.

Lemma from_pips_settles (r : role) (st : form) :
  update_from_pips r (update_from_pips r st) = update_from_pips r st.
Proof.
  destruct r; simpl.
  - rewrite !update_sl_from_pips_derive.
    apply derive_settles; first [done | apply read_after_write_sl_pips].
  - rewrite !update_tp_from_pips_derive.
    apply derive_settles; first [done | apply read_after_write_tp_pips].
Qed.

Lemma from_price_settles (r : role) (st : form) :
  update_from_price r (update_from_price r st) = update_from_price r st.
Proof.
  destruct r; simpl.
  - rewrite !update_sl_from_price_derive.
    apply derive_settles; first [done | apply read_after_write_sl_price].
  - rewrite !update_tp_from_price_derive.
    apply derive_settles; first [done | apply read_after_write_tp_price].
Qed.

(** X17: each of the four handlers settles in one step: run a second
    time on its own result it changes nothing, whatever the fields hold
    (numbers or not) and whether or not the guard flag is set.  The
    derived field does not creep. *)
Theorem handlers_settle (r : role) (st : form) :
  update_from_pips r (update_from_pips r st) = update_from_pips r st
  /\ update_from_price r (update_from_price r st) = update_from_price r st.
Proof.
  split; [apply from_pips_settles|apply from_price_settles].
Qed.

Lemma sl_tp_commute (st : form) :
  update_sl_from_pips (update_tp_from_pips st)
  = update_tp_from_pips (update_sl_from_pips st).
Proof.
  rewrite !update_sl_from_pips_derive, !update_tp_from_pips_derive.
  apply derive_commute; try done.
Qed.

(** X18: [sync_all_sl_tp] writes the two price fields only: the trade
    type, the entry price, both pips fields and the guard flag are as
    before, so the pips are what the prices follow; each price is what
    its own handler alone would have written; and the synchronisation
    settles in one step. *)
Theorem sync_all_sl_tp_frame (st : form) :
  trade_type_var (sync_all_sl_tp st) = trade_type_var st
  /\ entry_price_var (sync_all_sl_tp st) = entry_price_var st
  /\ sl_pips_var (sync_all_sl_tp st) = sl_pips_var st
  /\ tp_pips_var (sync_all_sl_tp st) = tp_pips_var st
  /\ _sl_tp_is_updating (sync_all_sl_tp st) = _sl_tp_is_updating st
  /\ sl_price_var (sync_all_sl_tp st) = sl_price_var (update_sl_from_pips st)
  /\ tp_price_var (sync_all_sl_tp st) = tp_price_var (update_tp_from_pips st)
  /\ sync_all_sl_tp (sync_all_sl_tp st) = sync_all_sl_tp st.
Proof.
  unfold sync_all_sl_tp.
  repeat split.
  - rewrite update_tp_from_pips_derive, update_sl_from_pips_derive.
    by rewrite !(derive_frame _ _ trade_type_var).
  - rewrite update_tp_from_pips_derive, update_sl_from_pips_derive.
    by rewrite !(derive_frame _ _ entry_price_var).
  - rewrite update_tp_from_pips_derive, update_sl_from_pips_derive.
    by rewrite !(derive_frame _ _ sl_pips_var).
  - rewrite update_tp_from_pips_derive, update_sl_from_pips_derive.
    by rewrite !(derive_frame _ _ tp_pips_var).
  - rewrite update_tp_from_pips_derive, update_sl_from_pips_derive.
    by rewrite !(derive_frame _ _ _sl_tp_is_updating).
  - rewrite update_tp_from_pips_derive.
    by rewrite (derive_frame _ _ sl_price_var).
  - rewrite <- sl_tp_commute, update_sl_from_pips_derive.
    by rewrite (derive_frame _ _ tp_price_var).
  - pose proof (from_pips_settles SL st) as Hsl.
    pose proof (from_pips_settles TP (update_sl_from_pips st)) as Htp.
    simpl in Hsl, Htp.
    by rewrite (sl_tp_commute (update_sl_from_pips st)), Hsl, Htp.
Qed.

(** ** Prices quoted to the cent *)

Lemma price_from_pips_near entry direction r a b eps :
  Qabs (a - b) <= eps ->
  Qabs (price_from_pips entry a direction r
        - price_from_pips entry b direction r) <= eps.
Proof.
  intros H. apply Qabs_Qle_condition in H. apply Qabs_Qle_condition.
  unfold price_from_pips, sign, PIP_VALUE_XAUUSD.
  destruct r, (String.eqb direction "Buy"); lra.
Qed.

Lemma cent_pips_are_tenths entry price direction r :
  to_the_cent entry -> to_the_cent price ->
  exists z : Z,
    pips_from_price_exact entry price direction r * pow10 1 == inject_Z z.
Proof.
  intros [a Ha] [b Hb].
  unfold pips_from_price_exact, sign, PIP_VALUE_XAUUSD.
  change (pow10 1) with (10 # 1).
  destruct r, (String.eqb direction "Buy");
    [exists (a - b)%Z | exists (b - a)%Z | exists (b - a)%Z
    | exists (a - b)%Z];
    unfold Zminus; rewrite inject_Z_plus, inject_Z_opp, <- Ha, <- Hb; field.
Qed.

Lemma update_from_price_frame (r : role) (st : form) :
  _sl_tp_is_updating (update_from_price r st) = _sl_tp_is_updating st
  /\ entry_price_var (update_from_price r st) = entry_price_var st
  /\ trade_type_var (update_from_price r st) = trade_type_var st
  /\ price_var r (update_from_price r st) = price_var r st.
Proof.
  destruct r; simpl.
  - rewrite update_sl_from_price_derive.
    by rewrite (derive_frame _ _ _sl_tp_is_updating),
      (derive_frame _ _ entry_price_var), (derive_frame _ _ trade_type_var),
      (derive_frame _ _ sl_price_var).
  - rewrite update_tp_from_price_derive.
    by rewrite (derive_frame _ _ _sl_tp_is_updating),
      (derive_frame _ _ entry_price_var), (derive_frame _ _ trade_type_var),
      (derive_frame _ _ tp_price_var).
Qed.

(** X19: with the entry price and a stop-loss or take-profit price both
    quoted to the cent, the price survives the derivations: after the
    pips have been derived from it, deriving the price from those pips
    again leaves the very same price in the field. *)
Theorem typed_price_is_kept (r : role) (st : form) (entry price cur : Q) :
  _sl_tp_is_updating st = false ->
  entry_price_var st = Some entry ->
  price_var r st = Some price ->
  pips_var r st = Some cur ->
  to_the_cent entry ->
  to_the_cent price ->
  price_var r (update_from_pips r (update_from_price r st)) = Some price.
Proof.
  intros Hflag Hentry Hprice Hcur Hce Hcp.
  destruct (from_price_written r st entry price cur Hflag Hentry Hprice Hcur)
    as (x & Hx & Hpips).
  destruct (update_from_price_frame r st) as (Hf1 & He1 & Ht1 & Hp1).
  rewrite Hflag in Hf1. rewrite Hentry in He1. rewrite Hprice in Hp1.
  destruct (from_pips_written r (update_from_price r st) entry _ price
              Hf1 He1 Hpips Hp1) as (computed & Hc & ->).
  rewrite Ht1 in Hc.
  destruct (cent_pips_are_tenths entry price (trade_type_var st) r Hce Hcp)
    as [z Hz].
  rewrite <- Hx in Hz.
  pose proof (py_round_exact x 1 z Hz) as Hexact.
  assert (Qabs ((if Qgtb (Qabs (cur - py_round x 1)) (1 # 1000000)
                 then py_round x 1 else cur) - x) <= 1 # 1000000) as Hnear.
  { destruct (Qgtb (Qabs (cur - py_round x 1)) (1 # 1000000)) eqn:Hg.
    - rewrite Hexact. apply Qabs_Qle_condition. lra.
    - apply Qgtb_false in Hg. by rewrite Hexact in Hg. }
  apply (price_from_pips_near entry (trade_type_var st) r) in Hnear.
  assert (price_from_pips entry x (trade_type_var st) r == price) as Hback.
  { unfold price_from_pips. rewrite Hx.
    exact (price_pips_inverse entry (trade_type_var st) r price). }
  rewrite <- Hc, Hback in Hnear.
  assert (Qgtb (Qabs (price - computed)) (1 # 1000000) = false) as ->;
    [|done].
  apply Qgtb_false. apply Qabs_Qle_condition in Hnear.
  apply Qabs_Qle_condition. lra.
Qed.

Lemma typed_price_is_kept_witness :
  let st :=
    mk_form "Sell" (Some (230050 # 100)) (Some 0) (Some (230175 # 100))
      (Some 0) (Some 0) false in
  sl_pips_var (update_sl_from_price st) = Some (py_round (125 # 10) 1)
  /\ sl_price_var (update_sl_from_pips (update_sl_from_price st))
     = Some (230175 # 100).
Proof.
  assert (to_the_cent (230050 # 100)) as Hentry
    by (exists 230050%Z; reflexivity).
  assert (to_the_cent (230175 # 100)) as Hprice
    by (exists 230175%Z; reflexivity).
  split; [vm_compute; reflexivity|].
  exact (typed_price_is_kept SL
           (mk_form "Sell" (Some (230050 # 100)) (Some 0)
              (Some (230175 # 100)) (Some 0) (Some 0) false)
           (230050 # 100) (230175 # 100) 0 eq_refl eq_refl eq_refl eq_refl
           Hentry Hprice).
Defined.

(** ** The money labels *)




End EntryForm.

(** * The market sessions, hour by hour *)

Module SessionTable.

Import Session.

(** The sessions that are open during hour [h] of the UTC day. *)
Definition open_in_hour (h : nat) : list string :=
  (if (21 <=? h)%nat || (h <? 6)%nat then ["Sydney"] else [])
  ++ (if (h <? 9)%nat then ["Tokyo"] else [])
  ++ (if (8 <=? h)%nat && (h <? 17)%nat then ["London"] else [])
  ++ (if (13 <=? h)%nat && (h <? 22)%nat then ["New York"] else []).

Lemma open_sessions_by_hour (t : dt_time) :
  open_sessions t = open_in_hour (hour t).
Proof.
  rewrite <- collect_active_open_sessions.
  unfold MARKET_SESSIONS_UTC, collect_active, is_open, open_in_hour.
  rewrite !time_ltb_hm, !time_leb_hm.
  change (hour (hm 21 0)) with 21%nat.
  change (hour (hm 0 0)) with 0%nat.
  change (hour (hm 8 0)) with 8%nat.
  change (hour (hm 13 0)) with 13%nat.
  change (21 <? 6)%nat with false. change (0 <? 9)%nat with true.
  change (8 <? 17)%nat with true. change (13 <? 22)%nat with true.
  change (0 <=? hour t)%nat with true.
  by destruct (21 <=? hour t)%nat, (hour t <? 6)%nat, (hour t <? 9)%nat,
    (8 <=? hour t)%nat, (hour t <? 17)%nat, (13 <=? hour t)%nat,
    (hour t <? 22)%nat.
Qed.

(** X21: the session label depends on the hour of the UTC time only,
    and the hours of the day are covered without a gap: 0-5
    "Sydney+Tokyo", 6-7 "Tokyo", 8 "Tokyo+London", 9-12 "London", 13-16
    "London+New York", 17-20 "New York", 21 "Sydney+New York", from 22
    on "Sydney".  The label "Closed" is never produced. *)
Theorem session_by_hour (t : dt_time) :
  session_str t = session_str (hm (hour t) 0)
  /\ ((hour t < 6)%nat -> session_str t = "Sydney+Tokyo")
  /\ ((6 <= hour t < 8)%nat -> session_str t = "Tokyo")
  /\ (hour t = 8%nat -> session_str t = "Tokyo+London")
  /\ ((9 <= hour t < 13)%nat -> session_str t = "London")
  /\ ((13 <= hour t < 17)%nat -> session_str t = "London+New York")
  /\ ((17 <= hour t < 21)%nat -> session_str t = "New York")
  /\ (hour t = 21%nat -> session_str t = "Sydney+New York")
  /\ ((22 <= hour t)%nat -> session_str t = "Sydney")
  /\ session_str t <> "Closed".
Proof.
  rewrite !session_of_open_sessions, !open_sessions_by_hour.
  change (hour (hm (hour t) 0)) with (hour t).
  split; [done|]. unfold open_in_hour.
  destruct (Nat.leb_spec 21 (hour t)), (Nat.ltb_spec (hour t) 6),
    (Nat.ltb_spec (hour t) 9), (Nat.leb_spec 8 (hour t)),
    (Nat.ltb_spec (hour t) 17), (Nat.leb_spec 13 (hour t)),
    (Nat.ltb_spec (hour t) 22); try lia; simpl;
    repeat split; intros; first [reflexivity | lia | discriminate].
Qed.

Lemma session_by_hour_witness :
  session_str (mk_time 8 59 59 999) = "Tokyo+London"
  /\ session_str (mk_time 21 15 0 0) = "Sydney+New York".
Proof.
  split.
  - exact (proj1 (proj2 (proj2 (proj2 (session_by_hour
             (mk_time 8 59 59 999))))) eq_refl).
  - exact (proj1 (proj2 (proj2 (proj2 (proj2 (proj2 (proj2 (proj2
             (session_by_hour (mk_time 21 15 0 0))))))))) eq_refl).
Defined.

End SessionTable.

(** * The partial-close fields of the review popup
      ([_update_partial_pips_from_price], [_update_partial_price_from_pips],
      [_update_partial_previews], lines 1062-1150) *)

Module PartialPopup.

Import PyNum Journal.
Local Open Scope Q_scope.

(** The three [DoubleVar]s of the "Add Partial Close" row and the guard
    flag of their traces. *)
Record popup := mk_popup
  { partial_amount_var : option Q;
    partial_pips_var : option Q;
    partial_price_var : option Q;
    is_updating_partial_sync : bool }.




Section OfTrade.

(** What the popup took from the trade when it was opened. *)
Variable trade_type : string.
Variable entry_price original_lot_size committed_closed_lots : Q.


Definition set_flag (b : bool) (st : popup) : popup :=
  mk_popup (partial_amount_var st) (partial_pips_var st)
    (partial_price_var st) b.

Definition set_pips (v : Q) (st : popup) : popup :=
  mk_popup (partial_amount_var st) (Some v) (partial_price_var st)
    (is_updating_partial_sync st).

Definition set_price (v : Q) (st : popup) : popup :=
  mk_popup (partial_amount_var st) (partial_pips_var st) (Some v)
    (is_updating_partial_sync st).

(** The fields after the handler; the previews it ends with are
    [_update_partial_previews] of the result. *)
Definition _update_partial_pips_from_price (st : popup) : popup :=
  if is_updating_partial_sync st then st
  else
    let st1 := set_flag true st in
    let body :=
      price ← partial_price_var st1;
      let new_pips :=
        if Qle_bool price 0 then 0
        else if String.eqb trade_type "Buy"
        then py_round ((price - entry_price) / PIP_VALUE_XAUUSD) 1
        else py_round ((entry_price - price) / PIP_VALUE_XAUUSD) 1 in
      cur ← partial_pips_var st1;
      Some (if Qgtb (Qabs (cur - new_pips)) (1 # 1000000)
            then set_pips new_pips st1 else st1) in
    set_flag false (default st1 body).

Definition _update_partial_price_from_pips (st : popup) : popup :=
  if is_updating_partial_sync st then st
  else
    let st1 := set_flag true st in
    let body :=
      pips ← partial_pips_var st1;
      let new_price :=
        if String.eqb trade_type "Buy"
        then entry_price + pips * PIP_VALUE_XAUUSD
        else entry_price - pips * PIP_VALUE_XAUUSD in
      cur ← partial_price_var st1;
      Some (if Qgtb (Qabs (cur - new_price)) (1 # 1000000)
            then set_price (py_round new_price 2) st1 else st1) in
    set_flag false (default st1 body).

End OfTrade.


(** ** The previews *)





(** ** Pips and price of a partial close *)

(** X23: in the popup the pips follow the price the way the close of the
    trade counts them: for a price above zero the pips written are
    [pips_moved] from the entry to that price, rounded to 1 decimal, and
    for a price of zero or less they are 0; the field is written only
    when it differs from that value by more than 1e-6, the other fields
    are left alone, and nothing happens while the flag is set or when
    the price field holds no number. *)
Theorem popup_pips_follow_price (trade_type : string) (entry_price : Q)
    (st : popup) :
  let st' := _update_partial_pips_from_price trade_type entry_price st in
  partial_amount_var st' = partial_amount_var st
  /\ partial_price_var st' = partial_price_var st
  /\ is_updating_partial_sync st' = is_updating_partial_sync st
  /\ (is_updating_partial_sync st = true \/ partial_price_var st = None ->
      st' = st)
  /\ (forall price cur,
        is_updating_partial_sync st = false ->
        partial_price_var st = Some price ->
        partial_pips_var st = Some cur ->
        let new_pips :=
          if Qle_bool price 0 then 0
          else py_round (pips_moved trade_type entry_price price) 1 in
        partial_pips_var st'
        = Some (if Qgtb (Qabs (cur - new_pips)) (1 # 1000000)
                then new_pips else cur)).
Proof.
  cbv zeta. unfold _update_partial_pips_from_price, pips_moved.
  destruct st as [amount pips price flag]. cbn [is_updating_partial_sync].
  destruct flag.
  { repeat split; try done. }
  unfold set_flag, set_pips.
  cbn [partial_amount_var partial_pips_var partial_price_var
       is_updating_partial_sync].
  destruct price as [price|]; [|repeat split; try done; by intros [?|?]].
  destruct pips as [cur|]; cbn [mbind option_bind default from_option id].
  2: { repeat split; try done; by intros [?|?]. }
  match goal with
  | |- context [Qgtb (Qabs (cur - ?v)) ?c] =>
      destruct (Qgtb (Qabs (cur - v)) c) eqn:Hguard
  end;
    cbn [partial_amount_var partial_pips_var partial_price_var
         is_updating_partial_sync];
    (split; [done|split; [done|split; [done|split]]]);
    try (by intros [?|?]);
    intros p c _ [= <-] [= <-];
    destruct (Qle_bool price 0), (String.eqb trade_type "Buy");
    by rewrite Hguard.
Qed.

Lemma popup_pips_follow_price_witness :
  let st := mk_popup (Some (1 # 4)) (Some 0) (Some (2310 # 1)) false in
  partial_pips_var (_update_partial_pips_from_price "Buy" (2300 # 1) st)
  = Some (if Qgtb (Qabs (0 - py_round (pips_moved "Buy" (2300 # 1)
                                         (2310 # 1)) 1)) (1 # 1000000)
          then py_round (pips_moved "Buy" (2300 # 1) (2310 # 1)) 1 else 0)
  /\ py_round (pips_moved "Buy" (2300 # 1) (2310 # 1)) 1 == 100 # 1.
Proof.
  split; [|reflexivity].
  exact (proj2 (proj2 (proj2 (proj2
           (popup_pips_follow_price "Buy" (2300 # 1)
              (mk_popup (Some (1 # 4)) (Some 0) (Some (2310 # 1)) false)))))
           (2310 # 1) 0 eq_refl eq_refl eq_refl).
Defined.

End PartialPopup.

(** * The statistics page ([src/stats.py]: [apply_filters], lines
      120-140; [update_stats_and_table], lines 142-167) *)

Module StatsPage.

Import PyNum.
Local Open Scope Q_scope.

(** One row of [self.data]. *)
Record trade := mk_trade
  { ID : Z;
    Setup : string;
    Entry_Type : string;
    Market_Session : string;
    Stop_Loss_Reason : string;
    Reason_for_Close : string;
    Take_Profit_Reason : string;
    Stop_Loss_Size : Q;
    PnL : Q;
    RR : Q;
    Win : bool;
    Hold_Time : Z }.

(** The keys of [self.filter_vars]: the six comboboxes and the entry
    for the minimal stop-loss size. *)
Inductive column :=
  | ColSetup
  | ColEntryType
  | ColMarketSession
  | ColStopLossReason
  | ColReasonForClose
  | ColTakeProfitReason.

Inductive filter_name :=
  | Combo (c : column)
  | StopLossSize.

(** [trade[filter_name]] *)
Definition cell (c : column) (t : trade) : string :=
  match c with
  | ColSetup => Setup t
  | ColEntryType => Entry_Type t
  | ColMarketSession => Market_Session t
  | ColStopLossReason => Stop_Loss_Reason t
  | ColReasonForClose => Reason_for_Close t
  | ColTakeProfitReason => Take_Profit_Reason t
  end.

Inductive colour := Red | Yellow | Green.

Record stats := mk_stats
  { total_trades : nat;
    wins : nat;
    losses : nat;
    win_rate : Q;
    total_pnl : Q;
    avg_rr : Q;
    avg_hold_time : Q;
    bar_width : Q;
    color : colour }.

(** [sum(f(trade) for trade in ...)] *)
Definition total (f : trade -> Q) (data : list trade) : Q :=
  fold_left (fun acc t => acc + f t) data 0.

Definition update_stats_and_table (filtered_data : list trade) : stats :=
  let total_trades := length filtered_data in
  let wins := length (filter (fun t => Win t = true) filtered_data) in
  let losses := (total_trades - wins)%nat in
  let n := inject_Z (Z.of_nat total_trades) in
  let win_rate :=
    if (0 <? total_trades)%nat
    then inject_Z (Z.of_nat wins) / n * (100 # 1) else 0 in
  let total_pnl := total PnL filtered_data in
  let avg_rr :=
    if (0 <? total_trades)%nat then total RR filtered_data / n else 0 in
  let avg_hold_time :=
    if (0 <? total_trades)%nat
    then total (fun t => inject_Z (Hold_Time t)) filtered_data / n else 0 in
  let bar_width := win_rate / (100 # 1) * (200 # 1) in
  let color :=
    if Qgtb win_rate (80 # 1) then Green
    else if Qgtb win_rate (50 # 1) then Yellow else Red in
  mk_stats total_trades wins losses win_rate total_pnl avg_rr avg_hold_time
    bar_width color.

Section WithFloat.

(** Python's [float] on a string; [None] when it raises [ValueError].
    The texts [float] reads as an infinity or as not-a-number have no
    value in [Q] and are outside this model. *)
Variable py_float : string -> option Q.

(** The inner loop of [apply_filters]: [match] after the loop over
    [current_filters.items()], with its [break]s. *)
Fixpoint matches (current_filters : list (filter_name * string))
    (t : trade) : bool :=
  match current_filters with
  | [] => true
  | (StopLossSize, filter_value) :: rest =>
      match py_float filter_value with
      | Some min_sl_size =>
          if Qltb (Stop_Loss_Size t) min_sl_size then false
          else matches rest t
      | None => matches rest t
      end
  | (Combo c, filter_value) :: rest =>
      if negb (String.eqb filter_value "ANY")
         && negb (String.eqb (cell c t) filter_value)
      then false
      else matches rest t
  end.

Definition apply_filters (current_filters : list (filter_name * string))
    (data : list trade) : list trade :=
  fold_left
    (fun filtered_data t =>
       if matches current_filters t then filtered_data ++ [t]
       else filtered_data)
    data [].

(** What a filter asks of a trade. *)
Definition satisfies (f : filter_name * string) (t : trade) : Prop :=
  match f with
  | (Combo c, v) => v = "ANY" \/ cell c t = v
  | (StopLossSize, v) =>
      forall min_sl_size,
        py_float v = Some min_sl_size -> min_sl_size <= Stop_Loss_Size t
  end.

End WithFloat.

(** ** Filtering *)

Lemma matches_Forall (py_float : string -> option Q) current_filters t :
  matches py_float current_filters t = true
  <-> Forall (fun f => satisfies py_float f t) current_filters.
Proof.
  induction current_filters as [|[[c|] v] rest IH]; simpl.
  - split; [constructor|done].
  - rewrite Forall_cons. simpl.
    destruct (String.eqb_spec v "ANY") as [->|Hany]; simpl.
    { rewrite IH. split; [tauto|]. by intros [_ ?]. }
    destruct (String.eqb_spec (cell c t) v) as [Hc|Hc]; simpl.
    { rewrite IH. split; [tauto|]. by intros [_ ?]. }
    split; [done|]. intros [[?|?] _]; done.
  - rewrite Forall_cons. simpl.
    destruct (py_float v) as [m|] eqn:Hv.
    + destruct (Qltb (Stop_Loss_Size t) m) eqn:Hlt.
      * split; [done|]. intros [Hmin _].
        specialize (Hmin m eq_refl). apply Qgtb_true in Hlt. lra.
      * rewrite IH. split.
        { intros Hrest. split; [|done]. intros ? [= <-].
          apply Qgtb_false in Hlt. done. }
        { by intros [_ ?]. }
    + rewrite IH. split; [|by intros [_ ?]].
      intros Hrest. split; [|done]. intros ? [=].
Qed.

Lemma apply_filters_filter (py_float : string -> option Q) current_filters
    data :
  apply_filters py_float current_filters data
  = filter (fun t => matches py_float current_filters t = true) data.
Proof.
  unfold apply_filters.
  assert (forall acc,
            fold_left
              (fun filtered_data t =>
                 if matches py_float current_filters t
                 then filtered_data ++ [t] else filtered_data) data acc
            = acc ++ filter (fun t => matches py_float current_filters t
                                      = true) data) as Hgen.
  { induction data as [|t data IH]; intros acc; simpl.
    - by rewrite app_nil_r.
    - rewrite IH, filter_cons.
      destruct (matches py_float current_filters t) eqn:Hm.
      + rewrite decide_True by done. by rewrite <- app_assoc.
      + by rewrite decide_False by done. }
  apply (Hgen []).
Qed.

(** What the page shows before any filter is chosen: every combobox on
    "ANY", the entry for the stop-loss size empty. *)
Definition no_filter (py_float : string -> option Q)
    (f : filter_name * string) : Prop :=
  match f with
  | (Combo _, v) => v = "ANY"
  | (StopLossSize, v) => py_float v = None
  end.

(** X24: the filtered table holds exactly the trades of the data that
    pass every filter (a combobox on "ANY" or equal to the trade's
    value; a minimal stop-loss size, when the entry holds a number, not
    above the trade's), in the order of the data; filtering what was
    filtered changes nothing; and with every combobox on "ANY" and no
    number in the stop-loss entry all trades are shown. *)
Theorem apply_filters_spec (py_float : string -> option Q)
    (current_filters : list (filter_name * string)) (data : list trade) :
  let filtered_data := apply_filters py_float current_filters data in
  (forall t,
     t ∈ filtered_data
     <-> t ∈ data /\ Forall (fun f => satisfies py_float f t) current_filters)
  /\ filtered_data `sublist_of` data
  /\ apply_filters py_float current_filters filtered_data = filtered_data
  /\ (Forall (no_filter py_float) current_filters -> filtered_data = data).
Proof.
  cbv zeta. rewrite !apply_filters_filter.
  split; [|split; [|split]].
  - intros t. rewrite list_elem_of_filter, matches_Forall. tauto.
  - apply sublist_filter.
  - rewrite list_filter_filter. apply list_filter_iff. tauto.
  - intros Hnone.
    assert (forall t, matches py_float current_filters t = true) as Hall.
    { intros t. apply matches_Forall.
      eapply Forall_impl; [exact Hnone|].
      intros [[c|] v]; simpl.
      - intros ->. by left.
      - intros -> m [=]. }
    induction data as [|t data IH]; [done|].
    rewrite filter_cons, decide_True by apply Hall. by rewrite IH.
Qed.

Lemma apply_filters_spec_witness :
  let scalp := mk_trade 1 "Scalp" "Limit" "London" "N/A" "Take Profit"
                 "Target Hit" (3 # 2) (120 # 1) (2 # 1) true 45 in
  let range := mk_trade 2 "Reversal" "Market" "Asia" "Hit SL" "Hit SL" "N/A"
                 (1 # 2) (-80 # 1) (-1 # 1) false 30 in
  apply_filters Journal.decimal_float
    [(Combo ColSetup, "ANY"); (StopLossSize, "")] [scalp; range]
  = [scalp; range]
  /\ apply_filters Journal.decimal_float
       [(Combo ColSetup, "ANY"); (StopLossSize, "1.0")] [scalp; range]
     = [scalp].
Proof.
  split; [|reflexivity].
  apply (proj2 (proj2 (proj2 (apply_filters_spec Journal.decimal_float
                                [(Combo ColSetup, "ANY"); (StopLossSize, "")]
                                _)))).
  repeat constructor.
Defined.

(** ** The overview *)

Lemma total_sum (f : trade -> Q) (data : list trade) (a : Q) :
  fold_left (fun acc t => acc + f t) data a
  == a + fold_right (fun t acc => f t + acc) 0 data.
Proof.
  revert a. induction data as [|t data IH]; intros a; simpl.
  - ring.
  - rewrite IH. ring.
Qed.

(** X25: in the overview wins and losses add up to the number of trades;
    the win rate lies between 0 and 100 and the bar, twice as wide, fits
    its canvas of 200; the bar is green above 80, yellow above 50 up to
    80 and red up to 50; without trades every figure is 0 and the bar
    is red; otherwise the averages times the number of trades are the
    sums. *)
Theorem stats_overview (filtered_data : list trade) :
  let s := update_stats_and_table filtered_data in
  let n := inject_Z (Z.of_nat (length filtered_data)) in
  (wins s + losses s = total_trades s)%nat
  /\ 0 <= win_rate s <= 100 # 1
  /\ bar_width s == (2 # 1) * win_rate s
  /\ 0 <= bar_width s <= 200 # 1
  /\ (color s = Green <-> 80 # 1 < win_rate s)
  /\ (color s = Yellow <-> 50 # 1 < win_rate s <= 80 # 1)
  /\ (color s = Red <-> win_rate s <= 50 # 1)
  /\ (filtered_data = [] ->
      win_rate s = 0 /\ avg_rr s = 0 /\ avg_hold_time s = 0
      /\ total_pnl s = 0 /\ color s = Red)
  /\ (filtered_data <> [] ->
      win_rate s * n == (100 # 1) * inject_Z (Z.of_nat (wins s))
      /\ avg_rr s * n == total RR filtered_data).
Proof.
  cbv zeta. unfold update_stats_and_table.
  cbn [wins losses total_trades win_rate bar_width color avg_rr
       avg_hold_time total_pnl].
  pose proof (length_filter (fun t => Win t = true) filtered_data) as Hw.
  set (w := length (filter (fun t => Win t = true) filtered_data)) in *.
  set (k := length filtered_data) in *.
  assert (0 <= (if (0 <? k)%nat
                then inject_Z (Z.of_nat w) / inject_Z (Z.of_nat k) * (100 # 1)
                else 0) <= 100 # 1) as Hrate.
  { destruct (Nat.ltb_spec 0 k) as [Hk|Hk]; [|lra].
    assert (0 < inject_Z (Z.of_nat k)) as Hq.
    { change 0 with (inject_Z 0). rewrite <- Zlt_Qlt. lia. }
    assert (inject_Z 0 <= inject_Z (Z.of_nat w)) as H0
      by (rewrite <- Zle_Qle; lia).
    assert (inject_Z (Z.of_nat w) <= inject_Z (Z.of_nat k)) as H1
      by (rewrite <- Zle_Qle; lia).
    change (inject_Z 0) with 0 in H0.
    assert (0 <= inject_Z (Z.of_nat w) / inject_Z (Z.of_nat k)) as Hlo
      by (apply Qle_shift_div_l; [done|lra]).
    assert (inject_Z (Z.of_nat w) / inject_Z (Z.of_nat k) <= 1) as Hhi
      by (apply Qle_shift_div_r; [done|lra]).
    lra. }
  set (rate := if (0 <? k)%nat
               then inject_Z (Z.of_nat w) / inject_Z (Z.of_nat k) * (100 # 1)
               else 0) in *.
  split; [lia|]. split; [done|]. split; [field|].
  split; [split; [|]|].
  { assert (rate / (100 # 1) * (200 # 1) == (2 # 1) * rate) as -> by field.
    lra. }
  { assert (rate / (100 # 1) * (200 # 1) == (2 # 1) * rate) as -> by field.
    lra. }
  split; [|split; [|split; [|split]]].
  - destruct (Qgtb rate (80 # 1)) eqn:E80.
    + apply Qgtb_true in E80. done.
    + apply Qgtb_false in E80.
      destruct (Qgtb rate (50 # 1)); (split; [done|lra]).
  - destruct (Qgtb rate (80 # 1)) eqn:E80.
    + apply Qgtb_true in E80. split; [done|lra].
    + apply Qgtb_false in E80.
      destruct (Qgtb rate (50 # 1)) eqn:E50.
      * apply Qgtb_true in E50. split; [lra|done].
      * apply Qgtb_false in E50. split; [done|lra].
  - destruct (Qgtb rate (80 # 1)) eqn:E80.
    + apply Qgtb_true in E80. split; [done|lra].
    + destruct (Qgtb rate (50 # 1)) eqn:E50.
      * apply Qgtb_true in E50. split; [done|lra].
      * apply Qgtb_false in E50. done.
  - intros Hempty. unfold rate, k, w. rewrite Hempty. simpl. done.
  - intros Hne.
    assert (0 < k)%nat as Hk by (unfold k; destruct filtered_data; [done|simpl; lia]).
    assert (0 < inject_Z (Z.of_nat k)) as Hq.
    { change 0 with (inject_Z 0). rewrite <- Zlt_Qlt. lia. }
    unfold rate. destruct (Nat.ltb_spec 0 k); [|lia].
    split; field; lra.
Qed.

Lemma stats_overview_witness :
  let scalp := mk_trade 1 "Scalp" "Limit" "London" "N/A" "Take Profit"
                 "Target Hit" (3 # 2) (120 # 1) (2 # 1) true 45 in
  let range := mk_trade 2 "Reversal" "Market" "Asia" "Hit SL" "Hit SL" "N/A"
                 (1 # 2) (-80 # 1) (-1 # 1) false 30 in
  [scalp; range] <> []
  /\ win_rate (update_stats_and_table [scalp; range]) * (2 # 1)
     == (100 # 1) * (1 # 1)
  /\ win_rate (update_stats_and_table []) = 0.
Proof.
  cbv zeta.
  split; [discriminate|].
  split.
  - destruct (stats_overview
                [mk_trade 1 "Scalp" "Limit" "London" "N/A" "Take Profit"
                   "Target Hit" (3 # 2) (120 # 1) (2 # 1) true 45;
                 mk_trade 2 "Reversal" "Market" "Asia" "Hit SL" "Hit SL"
                   "N/A" (1 # 2) (-80 # 1) (-1 # 1) false 30])
      as (_ & _ & _ & _ & _ & _ & _ & _ & Hfilled).
    apply Hfilled. discriminate.
  - destruct (stats_overview [])
      as (_ & _ & _ & _ & _ & _ & _ & Hempty & _).
    apply Hempty. reflexivity.
Defined.

End StatsPage.

(** * The journal file ([save_trades], [load_trades], [add_trade]) *)

Module JournalStore.

Import Normalize.
Local Open Scope Q_scope.

Definition TRADES_FILE : string := "trades_journal.json".

(** What a file holds: text that [json.load] rejects, or a JSON object
    whose "trades", when the key is there, is a list of trade objects
    and whose "account_balance", when there, is a number.  JSON of
    another shape is outside this model.  A path that is not in the map
    of files does not exist.  The file system is taken to be reliable:
    opening, reading and writing succeed; only the renaming of a file
    may fail. *)
Inductive content :=
  | Corrupted
  | Object (j_trades : option (list JournalFile.json_trade))
           (j_account_balance : option Q).

Inductive message :=
  | SaveFailed
  | CorruptedJournalFile
  | BackupCreated
  | BackupFailed.

(** The part of the application the three functions work on.
    [account_balance_var] is [None] when the field holds no number and
    [get()] raises; [running] turns false on [self.quit()]. *)
Record app := mk_app
  { trades : list JournalFile.trade;
    account_balance_var : option Q;
    files : gmap string content;
    shown : list message;
    running : bool }.

Definition save_trades (a : app) : app :=
  match account_balance_var a with
  | Some account_balance =>
      let data_to_save :=
        Object (Some (JournalFile.to_dict <$> trades a))
          (Some account_balance) in
      mk_app (trades a) (account_balance_var a)
        (<[TRADES_FILE := data_to_save]> (files a)) (shown a) (running a)
  | None =>
      mk_app (trades a) (account_balance_var a) (files a)
        (shown a ++ [SaveFailed]) (running a)
  end.

(** [response] is the answer to the yes/no question, [rename_ok]
    whether [os.rename] succeeds, [timestamp] the time of the backup as
    [strftime] prints it. *)
Definition load_trades (response rename_ok : bool) (timestamp : string)
    (a : app) : app :=
  match files a !! TRADES_FILE with
  | None =>
      mk_app [] (Some (10000 # 1)) (files a) (shown a) (running a)
  | Some (Object j_trades j_account_balance) =>
      mk_app (JournalFile.from_dict <$> default [] j_trades)
        (Some (default (10000 # 1) j_account_balance))
        (files a) (shown a) (running a)
  | Some Corrupted =>
      if response then
        let backup := TRADES_FILE +:+ ".bak_" +:+ timestamp in
        let renamed :=
          if rename_ok
          then <[backup := Corrupted]> (delete TRADES_FILE (files a))
          else files a in
        let boxes :=
          [CorruptedJournalFile;
           if rename_ok then BackupCreated else BackupFailed] in
        save_trades
          (mk_app [] (Some (10000 # 1)) renamed (shown a ++ boxes)
             (running a))
      else
        mk_app (trades a) (account_balance_var a) (files a)
          (shown a ++ [CorruptedJournalFile]) false
  end.

(** The variables of the entry form that [add_trade] reads; a
    [DoubleVar] is [None] when its field holds no number. *)
Record entry_form := mk_form
  { symbol_var : string;
    timeframe_var : string;
    trade_type_var : string;
    trade_date_var : string;
    trade_time_var : string;
    market_session_var : string;
    timezone_var : string;
    entry_price_var : option Q;
    lot_size_var : option Q;
    sl_pips_var : option Q;
    sl_price_var : option Q;
    sl_loss_var : string;
    sl_loss_pct_var : string;
    sl_reason_var : string;
    tp_pips_var : option Q;
    tp_price_var : option Q;
    tp_profit_var : string;
    tp_profit_pct_var : string;
    tp_reason_var : string;
    setup_var : string;
    entry_var : string;
    tf_screenshots : gmap string (gmap string pyval) }.

(** [s or fallback] on strings *)
Definition or_str (s fallback : string) : string :=
  if decide (s = "") then fallback else s.

(** The dict [info] of [add_trade]; [None] when one of the [get()]s
    raises. *)
Definition info_of (f : entry_form) (a : app) : option (gmap string pyval) :=
  entry_price ← entry_price_var f;
  lot_size ← lot_size_var f;
  sl_pips ← sl_pips_var f;
  sl_price ← sl_price_var f;
  tp_pips ← tp_pips_var f;
  tp_price ← tp_price_var f;
  account_balance ← account_balance_var a;
  Some (list_to_map
          [("symbol", VStr (symbol_var f));
           ("timeframe", VStr (or_str (timeframe_var f) "1h"));
           ("trade_type", VStr (trade_type_var f));
           ("trade_date", VStr (trade_date_var f));
           ("trade_time", VStr (trade_time_var f));
           ("market_session", VStr (market_session_var f));
           ("timezone", VStr (timezone_var f));
           ("entry_price", VNum entry_price);
           ("lot_size", VNum lot_size);
           ("sl_pips", VNum sl_pips);
           ("sl_price", VNum sl_price);
           ("sl_loss", VStr (sl_loss_var f));
           ("sl_loss_pct", VStr (sl_loss_pct_var f));
           ("sl_reason", VStr (sl_reason_var f));
           ("tp_pips", VNum tp_pips);
           ("tp_price", VNum tp_price);
           ("tp_profit", VStr (tp_profit_var f));
           ("tp_profit_pct", VStr (tp_profit_pct_var f));
           ("tp_reason", VStr (tp_reason_var f));
           ("setup", VStr (setup_var f));
           ("entry", VStr (entry_var f));
           ("account_balance", VNum account_balance)]).

(** [add_trade] up to and including [self.save_trades()]: what it does
    to the journal.  The lines after it redraw the table and reset the
    form, and touch neither the trades nor the file.  A [get()] that
    raises leaves the handler before anything was changed.  [Trade] is
    called without [review] and [partial_closes]. *)
Definition add_trade (f : entry_form) (a : app) : app :=
  match info_of f a with
  | None => a
  | Some info =>
      let symbol := symbol_var f in
      let tf := or_str (timeframe_var f) "1h" in
      let tf_shots := tf_screenshots f in
      let trade := JournalFile.init symbol tf info tf_shots ∅ [] false in
      save_trades
        (mk_app (trades a ++ [trade]) (account_balance_var a) (files a)
           (shown a) (running a))
  end.

(** The screenshots of the form hold the three timeframes with both
    slots, as [__init__] creates them and [attach_tf_img] and the reset
    of [add_trade] keep them. *)
Definition slots_present (shots : gmap string (gmap string pyval)) : Prop :=
  forall tf, tf ∈ JournalFile.TIMEFRAMES ->
    exists slot,
      shots !! tf = Some slot
      /\ is_Some (slot !! "before") /\ is_Some (slot !! "after").

(** ** Saving and loading *)

Lemma from_dict_to_dict_all (ts : list JournalFile.trade) :
  Forall JournalFile.complete ts ->
  JournalFile.from_dict <$> (JournalFile.to_dict <$> ts) = ts.
Proof.
  induction 1 as [|t ts Ht _ IH]; [done|].
  rewrite !fmap_cons, IH. by rewrite JournalFile.from_dict_to_dict.
Qed.

Lemma from_dict_all_complete (ds : list JournalFile.json_trade) :
  Forall JournalFile.complete (JournalFile.from_dict <$> ds).
Proof.
  apply Forall_fmap, Forall_forall. intros d _.
  apply JournalFile.from_dict_complete.
Qed.

Lemma load_saved (response rename_ok : bool) (timestamp : string) (a : app)
    (account_balance : Q) :
  account_balance_var a = Some account_balance ->
  load_trades response rename_ok timestamp (save_trades a)
  = mk_app (JournalFile.from_dict <$> (JournalFile.to_dict <$> trades a))
      (Some account_balance)
      (<[TRADES_FILE :=
           Object (Some (JournalFile.to_dict <$> trades a))
             (Some account_balance)]> (files a))
      (shown a) (running a).
Proof.
  intros Hbal. unfold save_trades, load_trades. rewrite Hbal.
  cbn [files trades account_balance_var shown running].
  by rewrite lookup_insert_eq.
Qed.

(** X26: what [save_trades] writes is what [load_trades] reads.  With a
    number in the balance field and complete trades, loading right
    after saving changes nothing: the trades and the balance are those
    saved, no file is touched and no box is shown.  Whatever the trades
    are, saving and loading a second time gives the trades of the first
    time.  Without a number in the balance field nothing is written and
    the failure is shown. *)
Theorem save_then_load (response rename_ok : bool) (timestamp : string)
    (a : app) :
  (forall account_balance,
     account_balance_var a = Some account_balance ->
     let saved := save_trades a in
     let loaded := load_trades response rename_ok timestamp saved in
     (Forall JournalFile.complete (trades a) -> loaded = saved)
     /\ trades saved = trades a
     /\ files saved !! TRADES_FILE
        = Some (Object (Some (JournalFile.to_dict <$> trades a))
                  (Some account_balance))
     /\ (forall other, other <> TRADES_FILE ->
           files saved !! other = files a !! other)
     /\ trades (load_trades response rename_ok timestamp
                  (save_trades loaded))
        = trades loaded)
  /\ (account_balance_var a = None ->
      files (save_trades a) = files a
      /\ trades (save_trades a) = trades a
      /\ shown (save_trades a) = shown a ++ [SaveFailed]).
Proof.
  split.
  - intros account_balance Hbal. cbv zeta.
    rewrite (load_saved _ _ _ _ _ Hbal).
    split; [|split; [|split; [|split]]].
    + intros Hc. rewrite (from_dict_to_dict_all _ Hc).
      unfold save_trades. by rewrite Hbal.
    + unfold save_trades. by rewrite Hbal.
    + unfold save_trades. rewrite Hbal. apply lookup_insert_eq.
    + intros other Hother. unfold save_trades. rewrite Hbal.
      cbn [files]. by apply lookup_insert_ne.
    + rewrite (load_saved _ _ _ _ account_balance) by done.
      cbn [files trades account_balance_var shown running].
      by rewrite (from_dict_to_dict_all _ (from_dict_all_complete _)).
  - intros Hbal. unfold save_trades. by rewrite Hbal.
Qed.

Lemma save_then_load_witness :
  let t := JournalFile.init "XAUUSD" "1h" ∅ ∅ ∅ [] false in
  let a := mk_app [t] (Some (10000 # 1)) ∅ [] true in
  account_balance_var a = Some (10000 # 1)
  /\ Forall JournalFile.complete (trades a)
  /\ load_trades false false "" (save_trades a) = save_trades a.
Proof.
  cbv zeta.
  assert (Forall JournalFile.complete
            [JournalFile.init "XAUUSD" "1h" ∅ ∅ ∅ [] false]) as Hc.
  { constructor; [|constructor].
    apply (JournalFile.from_dict_complete
             (JournalFile.mk_json (Some "XAUUSD") (Some "1h") None None None
                None None)). }
  split; [reflexivity|]. split; [exact Hc|].
  exact (proj1 (proj1 (save_then_load false false ""
                         (mk_app [JournalFile.init "XAUUSD" "1h" ∅ ∅ ∅ []
                                    false]
                            (Some (10000 # 1)) ∅ [] true))
                  (10000 # 1) eq_refl) Hc).
Defined.

(** X27: what [load_trades] leaves behind.  Unless the file is corrupted
    and the question is answered no, every trade is complete and the
    balance is a number, 10000 when the file is missing or names none.
    The file is written only after a corrupted one was found and the
    answer was yes: it then holds an empty journal with a balance of
    10000, and the corrupted text is kept under the backup name when
    the renaming succeeded.  Answered no, the application stops with
    trades, balance and files as they were.  Loading a second time
    changes nothing any more. *)
Theorem load_trades_spec (response rename_ok : bool) (timestamp : string)
    (a : app) :
  let loaded := load_trades response rename_ok timestamp a in
  (files a !! TRADES_FILE <> Some Corrupted \/ response = true ->
   Forall JournalFile.complete (trades loaded)
   /\ is_Some (account_balance_var loaded)
   /\ running loaded = running a
   /\ forall response' rename_ok' timestamp',
        load_trades response' rename_ok' timestamp' loaded = loaded)
  /\ (files a !! TRADES_FILE <> Some Corrupted ->
      files loaded = files a /\ shown loaded = shown a)
  /\ (files a !! TRADES_FILE = None ->
      trades loaded = [] /\ account_balance_var loaded = Some (10000 # 1))
  /\ (files a !! TRADES_FILE = Some Corrupted -> response = true ->
      trades loaded = []
      /\ account_balance_var loaded = Some (10000 # 1)
      /\ files loaded !! TRADES_FILE
         = Some (Object (Some []) (Some (10000 # 1)))
      /\ (rename_ok = true ->
          files loaded !! (TRADES_FILE +:+ ".bak_" +:+ timestamp)
          = Some Corrupted))
  /\ (files a !! TRADES_FILE = Some Corrupted -> response = false ->
      running loaded = false
      /\ trades loaded = trades a
      /\ account_balance_var loaded = account_balance_var a
      /\ files loaded = files a).
Proof.
  cbv zeta. unfold load_trades.
  destruct (files a !! TRADES_FILE) as [[|j_trades j_balance]|] eqn:Hfile.
  - (* corrupted *)
    destruct response.
    + unfold save_trades.
      cbn [files trades account_balance_var shown running].
      split.
      { intros _. split; [constructor|]. split; [eauto|].
        split; [done|]. intros response' rename_ok' timestamp'.
        unfold load_trades. cbn [files]. by rewrite lookup_insert_eq. }
      split; [done|]. split; [done|]. split; [|done].
      intros _ _. split; [done|]. split; [done|].
      split; [apply lookup_insert_eq|].
      intros ->. rewrite lookup_insert_ne by done.
      apply lookup_insert_eq.
    + split; [by intros [?|?]|]. split; [done|]. split; [done|].
      split; [done|]. done.
  - (* a journal *)
    split.
    { intros _. split; [apply from_dict_all_complete|].
      split; [eauto|]. split; [done|].
      intros response' rename_ok' timestamp'.
      unfold load_trades. cbn [files]. by rewrite Hfile. }
    split; [done|]. split; [done|]. split; done.
  - (* no file *)
    split.
    { intros _. split; [constructor|]. split; [eauto|]. split; [done|].
      intros response' rename_ok' timestamp'.
      unfold load_trades. cbn [files]. by rewrite Hfile. }
    split; [done|]. split; [done|]. split; done.
Qed.

Lemma load_trades_spec_witness :
  let a :=
    mk_app [] None {[ TRADES_FILE := Corrupted ]} [] true in
  files a !! TRADES_FILE = Some Corrupted
  /\ files (load_trades true true "20260105_100000" a)
       !! "trades_journal.json.bak_20260105_100000"
     = Some Corrupted
  /\ files (load_trades true true "20260105_100000" a) !! TRADES_FILE
     = Some (Object (Some []) (Some (10000 # 1))).
Proof.
  cbv zeta.
  destruct (load_trades_spec true true "20260105_100000"
              (mk_app [] None {[ TRADES_FILE := Corrupted ]} [] true))
    as (_ & _ & _ & Hyes & _).
  destruct (Hyes eq_refl eq_refl) as (_ & _ & Hnew & Hbackup).
  split; [reflexivity|]. split; [exact (Hbackup eq_refl)|exact Hnew].
Defined.

(** ** Adding a trade *)

Lemma info_of_nonempty (f : entry_form) (a : app) info :
  info_of f a = Some info -> info <> ∅.
Proof.
  unfold info_of.
  destruct (entry_price_var f), (lot_size_var f), (sl_pips_var f),
    (sl_price_var f), (tp_pips_var f), (tp_price_var f),
    (account_balance_var a); try done.
  intros Hinfo. apply (inj Some) in Hinfo. rewrite <- Hinfo.
  exact (insert_non_empty _ _ _).
Qed.

(** X28: [add_trade] appends one trade and saves.  When every number
    field of the form and the balance hold a number, the journal gains
    exactly one trade at its end, carrying the symbol, the form's
    screenshots, the default review, no partial close and [sl_to_be]
    false; the older trades are as before; the new trade is complete;
    and the file holds the whole list, so that loading gives back the
    same trades when the older ones were complete.  When a number field
    holds no number, nothing changes at all. *)
Theorem add_trade_spec (f : entry_form) (a : app) :
  let added := add_trade f a in
  (forall info,
     info_of f a = Some info ->
     slots_present (tf_screenshots f) ->
     exists trade,
       trades added = trades a ++ [trade]
       /\ JournalFile.symbol trade = symbol_var f
       /\ JournalFile.timeframe trade = or_str (timeframe_var f) "1h"
       /\ JournalFile.info trade = info
       /\ JournalFile.tf_screenshots trade = tf_screenshots f
       /\ JournalFile.review trade = JournalFile.default_review
       /\ JournalFile.partial_closes trade = []
       /\ JournalFile.sl_to_be trade = false
       /\ JournalFile.complete trade
       /\ (exists account_balance,
             files added !! TRADES_FILE
             = Some (Object (Some (JournalFile.to_dict <$> trades added))
                       (Some account_balance)))
       /\ (Forall JournalFile.complete (trades a) ->
           forall response rename_ok timestamp,
             load_trades response rename_ok timestamp added = added))
  /\ (info_of f a = None -> added = a).
Proof.
  cbv zeta. unfold add_trade. split; [|by intros ->].
  intros info Hinfo Hslots. rewrite Hinfo.
  assert (exists account_balance, account_balance_var a = Some account_balance)
    as [account_balance Hbal].
  { unfold info_of in Hinfo.
    destruct (entry_price_var f), (lot_size_var f), (sl_pips_var f),
      (sl_price_var f), (tp_pips_var f), (tp_price_var f); try done.
    destruct (account_balance_var a); [eauto|done]. }
  assert (tf_screenshots f <> ∅) as Hshots.
  { intros Hempty. destruct (Hslots "D1") as (slot & Hslot & _).
    - apply (bool_decide_unpack _). vm_compute. exact I.
    - by rewrite Hempty, lookup_empty in Hslot. }
  set (trade := JournalFile.init (symbol_var f)
                  (or_str (timeframe_var f) "1h") info (tf_screenshots f)
                  ∅ [] false).
  assert (JournalFile.info trade = info) as Hi.
  { unfold trade, JournalFile.init, JournalFile.or_else. simpl.
    rewrite decide_False; [done|]. by eapply info_of_nonempty. }
  assert (JournalFile.tf_screenshots trade = tf_screenshots f) as Hs.
  { unfold trade, JournalFile.init, JournalFile.or_else. simpl.
    by rewrite decide_False. }
  assert (JournalFile.review trade = JournalFile.default_review) as Hr
    by done.
  assert (JournalFile.complete trade) as Hc.
  { split; [|split].
    - intros k Hk. rewrite Hr. by apply JournalFile.default_review_keys.
    - intros tf Htf. rewrite Hs. by apply Hslots.
    - constructor. }
  exists trade.
  unfold save_trades. cbn [account_balance_var trades files shown running].
  rewrite Hbal. cbn [account_balance_var trades files shown running].
  split; [done|]. split; [done|]. split; [done|]. split; [done|].
  split; [done|]. split; [done|]. split; [done|]. split; [done|].
  split; [done|].
  split; [exists account_balance; apply lookup_insert_eq|].
  intros Hold response rename_ok timestamp.
  unfold load_trades. cbn [files]. rewrite lookup_insert_eq.
  cbn [default from_option id].
  rewrite from_dict_to_dict_all; [done|].
  apply Forall_app. split; [done|]. by constructor.
Qed.

Definition blank_form : entry_form :=
  mk_form "XAUUSD" "" "Buy" "2026-01-05" "10:00" "London" "UTC"
    (Some (2300 # 1)) (Some (1 # 1)) (Some (50 # 1)) (Some (2295 # 1))
    "-500.00" "5.00%" "" (Some (100 # 1)) (Some (2310 # 1))
    "1000.00" "10.00%" "" "Breakout" "Limit"
    JournalFile.default_tf_screenshots.

Lemma add_trade_spec_witness :
  let a := mk_app [] (Some (10000 # 1)) ∅ [] true in
  is_Some (info_of blank_form a)
  /\ slots_present (tf_screenshots blank_form)
  /\ exists trade,
       trades (add_trade blank_form a) = [trade]
       /\ JournalFile.timeframe trade = "1h"
       /\ JournalFile.complete trade.
Proof.
  cbv zeta.
  assert (slots_present (tf_screenshots blank_form)) as Hslots.
  { intros tf Htf. exists JournalFile.default_slot.
    split; [|apply (JournalFile.slot_of_has_keys None)].
    unfold JournalFile.TIMEFRAMES in Htf.
    rewrite !elem_of_cons, elem_of_nil in Htf.
    destruct Htf as [->|[->|[->|[]]]]; reflexivity. }
  split; [eexists; reflexivity|]. split; [exact Hslots|].
  destruct (proj1 (add_trade_spec blank_form
                     (mk_app [] (Some (10000 # 1)) ∅ [] true))
              _ eq_refl Hslots)
    as (trade & Htrades & _ & Htf & _ & _ & _ & _ & _ & Hc & _).
  exists trade. split; [exact Htrades|]. split; [exact Htf|exact Hc].
Defined.

End JournalStore.

(** * Time in trade ([calculate_time_in_trade]) *)

Module TimeInTrade.

Local Open Scope Z_scope.

(** A [datetime] read with the format "%Y-%m-%d %H:%M": the day as its
    ordinal and the time of day; seconds are zero. *)
Record datetime := mk_datetime
  { day : Z;
    hour : Z;
    minute : Z }.

(** The text of [time_in_trade_var]: "N/A", "Invalid Time", or
    "<hours>h <minutes>m". *)
Inductive label :=
  | NA
  | InvalidTime
  | Duration (hours minutes : Z).

(** [(end_dt - start_dt).total_seconds()] *)
Definition seconds_between (start_dt end_dt : datetime) : Z :=
  (day end_dt - day start_dt) * 86400
  + (hour end_dt - hour start_dt) * 3600
  + (minute end_dt - minute start_dt) * 60.

Section WithStrptime.

(** [datetime.strptime(_, "%Y-%m-%d %H:%M")]; [None] when it raises
    [ValueError]. *)
Variable strptime : string -> option datetime.

Definition calculate_time_in_trade (trade_date trade_time exit_time : string)
    : label :=
  if String.eqb trade_date "" || String.eqb trade_time ""
     || String.eqb exit_time ""
  then NA
  else
    let start_dt_str := trade_date +:+ " " +:+ trade_time in
    let end_dt_str := trade_date +:+ " " +:+ exit_time in
    match strptime start_dt_str with
    | None => InvalidTime
    | Some start_dt =>
        match strptime end_dt_str with
        | None => InvalidTime
        | Some end_dt =>
            let duration := seconds_between start_dt end_dt in
            let duration :=
              if duration <? 0 then duration + 86400 else duration in
            let total_seconds := duration in
            let hours := total_seconds / 3600 in
            let minutes := (total_seconds mod 3600) / 60 in
            Duration hours minutes
        end
    end.

End WithStrptime.

(** A time of day as [strptime] returns it. *)
Definition time_of_day (dt : datetime) : Prop :=
  0 <= hour dt < 24 /\ 0 <= minute dt < 60.

(** X29: with the three texts filled in and both readings on the same
    day, the label shows a duration below 24 hours: whole hours and
    minutes below 60, together the minutes from the entry time to the
    exit time, counted round the clock, so that an exit time before the
    entry time is taken to be on the next day.  An empty text gives
    "N/A", a text that cannot be read "Invalid Time". *)
Theorem time_in_trade_spec (strptime : string -> option datetime)
    (trade_date trade_time exit_time : string) :
  (forall start_dt end_dt,
     trade_date <> "" -> trade_time <> "" -> exit_time <> "" ->
     strptime (trade_date +:+ " " +:+ trade_time) = Some start_dt ->
     strptime (trade_date +:+ " " +:+ exit_time) = Some end_dt ->
     time_of_day start_dt -> time_of_day end_dt ->
     day start_dt = day end_dt ->
     exists hours minutes,
       calculate_time_in_trade strptime trade_date trade_time exit_time
       = Duration hours minutes
       /\ 0 <= hours < 24 /\ 0 <= minutes < 60
       /\ hours * 60 + minutes
          = ((hour end_dt * 60 + minute end_dt)
             - (hour start_dt * 60 + minute start_dt)) mod 1440)
  /\ (trade_date = "" \/ trade_time = "" \/ exit_time = "" ->
      calculate_time_in_trade strptime trade_date trade_time exit_time = NA)
  /\ (trade_date <> "" -> trade_time <> "" -> exit_time <> "" ->
      strptime (trade_date +:+ " " +:+ trade_time) = None
      \/ strptime (trade_date +:+ " " +:+ exit_time) = None ->
      calculate_time_in_trade strptime trade_date trade_time exit_time
      = InvalidTime).
Proof.
  unfold calculate_time_in_trade. split; [|split].
  - intros start_dt end_dt Hd Ht He Hstart Hend (Hh1 & Hm1) (Hh2 & Hm2) Hday.
    rewrite (proj2 (String.eqb_neq _ _) Hd), (proj2 (String.eqb_neq _ _) Ht),
      (proj2 (String.eqb_neq _ _) He).
    cbn [orb]. cbv zeta. rewrite Hstart, Hend.
    unfold seconds_between. rewrite Hday.
    set (d := (hour end_dt * 60 + minute end_dt)
              - (hour start_dt * 60 + minute start_dt)).
    assert ((day end_dt - day end_dt) * 86400
            + (hour end_dt - hour start_dt) * 3600
            + (minute end_dt - minute start_dt) * 60 = d * 60) as ->
      by (unfold d; lia).
    assert (-1440 < d < 1440) as Hd' by (unfold d; lia).
    assert (forall x, 0 <= x < 1440 ->
              0 <= x * 60 / 3600 < 24
              /\ 0 <= (x * 60) mod 3600 / 60 < 60
              /\ x * 60 / 3600 * 60 + (x * 60) mod 3600 / 60 = x) as Hsplit.
    { intros x Hx. change 3600 with (60 * 60).
      rewrite Z.div_mul_cancel_r, Z.mul_mod_distr_r, Z.div_mul by lia.
      pose proof (Z.div_mod x 60 ltac:(lia)).
      pose proof (Z.mod_pos_bound x 60 ltac:(lia)). lia. }
    do 2 eexists. split; [reflexivity|].
    destruct (Z.ltb_spec (d * 60) 0) as [Hneg|Hpos].
    + assert (d * 60 + 86400 = (d + 1440) * 60) as -> by lia.
      assert (d mod 1440 = d + 1440) as ->
        by (symmetry; apply (Z.mod_unique _ _ (-1)); lia).
      destruct (Hsplit (d + 1440)) as (? & ? & ?); [lia|done].
    + assert (d mod 1440 = d) as -> by (apply Z.mod_small; lia).
      destruct (Hsplit d) as (? & ? & ?); [lia|done].
  - intros [->|[->| ->]]; [done| |].
    + by rewrite orb_true_r.
    + by rewrite orb_true_r.
  - intros Hd Ht He Hnone.
    rewrite (proj2 (String.eqb_neq _ _) Hd), (proj2 (String.eqb_neq _ _) Ht),
      (proj2 (String.eqb_neq _ _) He).
    cbn [orb]. cbv zeta.
    destruct Hnone as [->| ->]; [done|].
    by destruct (strptime _).
Qed.

(** A reader of "%H:%M" after a ten-character date, for two-digit
    fields. *)
Definition digit (c : ascii) : option Z :=
  let n := Z.of_nat (nat_of_ascii c) - 48 in
  if (0 <=? n) && (n <=? 9) then Some n else None.

Definition two_digit_clock (s : string) : option datetime :=
  match drop 11%nat (String.list_ascii_of_string s) with
  | [h1; h2; colon; m1; m2] =>
      a ← digit h1; b ← digit h2; c ← digit m1; d ← digit m2;
      if Ascii.eqb colon ":"%char && (10 * a + b <? 24) && (10 * c + d <? 60)
      then Some (mk_datetime 0 (10 * a + b) (10 * c + d))
      else None
  | _ => None
  end.

Lemma time_in_trade_spec_witness :
  exists hours minutes,
    calculate_time_in_trade two_digit_clock "2026-01-05" "23:30" "01:10"
    = Duration hours minutes
    /\ 0 <= hours < 24
    /\ hours * 60 + minutes = 100.
Proof.
  destruct (proj1 (time_in_trade_spec two_digit_clock "2026-01-05" "23:30"
                     "01:10")
              (mk_datetime 0 23 30) (mk_datetime 0 1 10))
    as (hours & minutes & Hlabel & Hhours & _ & Hsum).
  - discriminate.
  - discriminate.
  - discriminate.
  - reflexivity.
  - reflexivity.
  - unfold time_of_day. simpl. lia.
  - unfold time_of_day. simpl. lia.
  - reflexivity.
  - exists hours, minutes.
    split; [exact Hlabel|]. split; [exact Hhours|exact Hsum].
Defined.

End TimeInTrade.
